(** * tg_bot: the scheduler and the messenger

    A shallow embedding of [src/utils/scheduler.js] (class [Scheduler]) and
    [src/utils/messenger.js] (class [Messenger]), and the properties of the
    scheduled, rate-limit-aware dispatch engine that they implement; then of
    what surrounds them: [src/utils/session.js] (class [SessionManager]),
    the class [TelegramAuth] and the task that [main] schedules.

    Conventions of the embedding.
    - JavaScript numbers that the program handles are integers: [Z]; what
      [parseInt] reads is rounded to a double ([Js.to_double]).
    - JavaScript strings are [string]; the regular expressions of the program
      only look at ASCII digits, [:] and the letters of [FLOOD_WAIT_].
    - What the program itself, the file system and the transport throw is
      an [Error] object carrying a [message] string ([exn]); a synchronous
      call ends in a [completion], an [async] function in a [promise].
    - What a callback given by the caller (a scheduled task) or the
      Telegram client throws is any value, [null] and [undefined] included
      ([thrown]); such a call ends in an [ending], and a [catch] block that
      reads [err.message] may throw in its turn ([thrown_message]).
    - Mutable objects ([this.scheduledTasks], the logger, the tasks that
      node-cron holds, the transport) live in an explicit state that every
      method takes and returns. *)

From Stdlib Require Import ZArith String Ascii DecimalString DecimalPos.
From stdpp Require Import base list strings.

Local Open Scope Z_scope.

(** ** JavaScript values and control *)

Inductive exn : Type :=
| Error (message : string)
| TypeError (message : string)
| RangeError (message : string).

(** [err.message] *)
Definition err_message (e : exn) : string :=
  match e with Error m => m | TypeError m => m | RangeError m => m end.

Inductive completion (A : Type) : Type :=
| Normal (a : A)
| Throw (e : exn).
Arguments Normal {A}.
Arguments Throw {A}.

(** The settled state of the promise that an [async] function returns. *)
Inductive promise (A : Type) : Type :=
| Resolved (a : A)
| Rejected (e : exn).
Arguments Resolved {A}.
Arguments Rejected {A}.

(** [null] and [undefined]: the two values no property can be read of. *)
Inductive nullish : Type := null | undefined.

Definition nullish_name (n : nullish) : string :=
  match n with null => "null" | undefined => "undefined" end.

(** The [TypeError] of reading the property [property] of [null] or of
    [undefined]. *)
Definition cannot_read (n : nullish) (property : string) : exn :=
  TypeError ("Cannot read properties of " +:+ nullish_name n
             +:+ " (reading '" +:+ property +:+ "')").

(** Any value that a [throw] or a rejected promise can carry: an [Error]
    object, [null] or [undefined], or another value, of which all that the
    program could read is a [message] it does not have. *)
Inductive thrown : Type :=
| ThrownError (e : exn)
| ThrownNullish (n : nullish)
| ThrownOther.

(** [`${err.message}`] in a [catch (err)] block: the property access
    throws when [err] is [null] or [undefined]; a value without the
    property gives [undefined], which the template prints. *)
Definition thrown_message (err : thrown) : completion string :=
  match err with
  | ThrownError e => Normal (err_message e)
  | ThrownNullish n => Throw (cannot_read n "message")
  | ThrownOther => Normal "undefined"
  end.

(** How a call that may throw any value ends. *)
Inductive ending (A : Type) : Type :=
| Returned (a : A)
| Threw (err : thrown).
Arguments Returned {A}.
Arguments Threw {A}.

(** The logger ([src/utils/logger.js]) is a sink: what is logged, through
    which method, is kept in the order of the calls. *)
Module Logger.
Inductive level : Type := info | warn | error.
End Logger.

Definition LogEntry : Type := Logger.level * string.

(** ** Strings *)

Module Js.

Definition is_digit (c : ascii) : bool :=
  match c with
  | "0" | "1" | "2" | "3" | "4" | "5" | "6" | "7" | "8" | "9" => true
  | _ => false
  end%char.

Definition digit_value (c : ascii) : Z :=
  match c with
  | "1" => 1 | "2" => 2 | "3" => 3 | "4" => 4 | "5" => 5
  | "6" => 6 | "7" => 7 | "8" => 8 | "9" => 9 | _ => 0
  end%char.

Fixpoint all_digits (s : string) : bool :=
  match s with
  | EmptyString => true
  | String c s' => is_digit c && all_digits s'
  end.

(** The value of a string of decimal digits, most significant first. *)
Fixpoint digits_value (acc : Z) (s : string) : Z :=
  match s with
  | EmptyString => acc
  | String c s' => digits_value (10 * acc + digit_value c) s'
  end.

(** [String(n)] and [`${n}`] for an integer [n]. *)
Definition to_string (n : Z) : string :=
  NilZero.string_of_int (Z.to_int n).

(** [Number(s)] on the strings that reach it here: a string of digits is
    its decimal value (the empty string is [0]); [None] is [NaN]. *)
Definition Number (s : string) : option Z :=
  if all_digits s then Some (digits_value 0 s) else None.

(** [`${x}`] for the result of [Number]. *)
Definition number_to_string (x : option Z) : string :=
  match x with Some n => to_string n | None => "NaN" end.

(** The double nearest to a non-negative integer, ties to the even
    significand: the Number value of that integer. Below 2^53 every
    integer is a double; from there on 53 significant bits are kept. *)
Definition to_double (n : Z) : Z :=
  if n <? 2 ^ 53 then n
  else
    let e := Z.log2 n - 52 in
    let q := Z.shiftr n e in
    let r := Z.land n (Z.ones e) in
    let half := 2 ^ (e - 1) in
    (if (half <? r) || ((r =? half) && Z.odd q) then q + 1 else q) * 2 ^ e.

(** [parseInt(s, 10)] on a non-empty string of digits (the only strings
    that reach it here, see [_extractFloodWaitTime]): the Number value of
    the decimal numeral. The result is exact below 2^53 and rounded from
    there on. (Past twenty significant digits the language lets an
    implementation round the numeral first, and past the largest double
    the result is [Infinity]: the model rounds the exact value.) *)
Definition parseInt (s : string) : Z := to_double (digits_value 0 s).

Fixpoint starts_with (p s : string) : bool :=
  match p, s with
  | EmptyString, _ => true
  | String a p', String b s' => Ascii.eqb a b && starts_with p' s'
  | String _ _, EmptyString => false
  end.

(** [s.includes(p)] *)
Fixpoint includes (p s : string) : bool :=
  starts_with p s ||
  match s with
  | EmptyString => false
  | String _ s' => includes p s'
  end.

Fixpoint drop (n : nat) (s : string) : string :=
  match n, s with
  | O, _ => s
  | S n', String _ s' => drop n' s'
  | S _, EmptyString => EmptyString
  end.

(** The longest prefix of digits: what a greedy [\d*] takes. *)
Fixpoint take_digits (s : string) : string :=
  match s with
  | String c s' => if is_digit c then String c (take_digits s') else EmptyString
  | EmptyString => EmptyString
  end.

(** [s.split(sep)] for a one-character separator. *)
Fixpoint split (sep : ascii) (s : string) : list string :=
  match s with
  | EmptyString => [EmptyString]
  | String c s' =>
      if Ascii.eqb c sep then EmptyString :: split sep s'
      else match split sep s' with
           | w :: ws => String c w :: ws
           | [] => [String c EmptyString]
           end
  end.

End Js.

(** ** Regular expressions

    The anchored expression of [dailyTimeToCron] is kept as data and run by
    a derivative matcher: [test r s] is [r.test(s)] for an expression [r]
    written between [^] and [$] (no [m] flag, so [$] is the end of input). *)

Module Regex.

Inductive t : Type :=
| Void
| Eps
| Class (lo hi : ascii)
| Seq (r1 r2 : t)
| Alt (r1 r2 : t)
| Opt (r : t).

(** A single character [c] is the class [c-c]. *)
Definition Chr (c : ascii) : t := Class c c.

Definition in_class (lo hi c : ascii) : bool :=
  (N.leb (N_of_ascii lo) (N_of_ascii c) && N.leb (N_of_ascii c) (N_of_ascii hi))%N.

Fixpoint nullable (r : t) : bool :=
  match r with
  | Void => false
  | Eps => true
  | Class _ _ => false
  | Seq r1 r2 => nullable r1 && nullable r2
  | Alt r1 r2 => nullable r1 || nullable r2
  | Opt _ => true
  end.

Fixpoint deriv (c : ascii) (r : t) : t :=
  match r with
  | Void => Void
  | Eps => Void
  | Class lo hi => if in_class lo hi c then Eps else Void
  | Seq r1 r2 =>
      if nullable r1 then Alt (Seq (deriv c r1) r2) (deriv c r2)
      else Seq (deriv c r1) r2
  | Alt r1 r2 => Alt (deriv c r1) (deriv c r2)
  | Opt r1 => deriv c r1
  end.

Fixpoint test (r : t) (s : string) : bool :=
  match s with
  | EmptyString => nullable r
  | String c s' => test (deriv c r) s'
  end.

(** The strings that an expression stands for. *)
Fixpoint denote (r : t) (s : string) : Prop :=
  match r with
  | Void => False
  | Eps => s = EmptyString
  | Class lo hi => exists c, s = String c EmptyString /\ in_class lo hi c = true
  | Seq r1 r2 => exists s1 s2, s = s1 +:+ s2 /\ denote r1 s1 /\ denote r2 s2
  | Alt r1 r2 => denote r1 s \/ denote r2 s
  | Opt r1 => s = EmptyString \/ denote r1 s
  end.

End Regex.


(** ** The scheduler ([src/utils/scheduler.js]) *)

Module Scheduler.

(** *** Conversions to cron expressions *)

Definition intervalToCron (value : Z) (unit : string) : completion string :=
  if String.eqb unit "minutes" then
    if (value <? 1) || (value >? 59)
    then Throw (Error "Invalid minute interval. Must be between 1 and 59.")
    else Normal ("*/" +:+ Js.to_string value +:+ " * * * *")
  else if String.eqb unit "hours" then
    if (value <? 1) || (value >? 23)
    then Throw (Error "Invalid hour interval. Must be between 1 and 23.")
    else Normal ("0 */" +:+ Js.to_string value +:+ " * * *")
  else if String.eqb unit "days" then
    if (value <? 1) || (value >? 30)
    then Throw (Error "Invalid day interval. Must be between 1 and 30.")
    else Normal ("0 0 */" +:+ Js.to_string value +:+ " * *")
  else Throw (Error ("Unsupported interval unit: " +:+ unit)).

(** [/^([01]?[0-9]|2[0-3]):([0-5][0-9])$/] *)
Definition timeRegex : Regex.t :=
  Regex.Seq
    (Regex.Alt
       (Regex.Seq (Regex.Opt (Regex.Class "0" "1")) (Regex.Class "0" "9"))
       (Regex.Seq (Regex.Chr "2") (Regex.Class "0" "3")))
    (Regex.Seq (Regex.Chr ":")
       (Regex.Seq (Regex.Class "0" "5") (Regex.Class "0" "9"))).

(** [`${x}`] for a destructured array element: [None] is [undefined]. *)
Definition element_to_string (x : option (option Z)) : string :=
  match x with
  | Some n => Js.number_to_string n
  | None => "undefined"
  end.

Definition dailyTimeToCron (time : string) : completion string :=
  if negb (Regex.test timeRegex time)
  then Throw (Error "Invalid time format. Must be in 24-hour format (HH:MM).")
  else
    let parts := map Js.Number (Js.split ":" time) in
    let hours := parts !! 0%nat in
    let minutes := parts !! 1%nat in
    Normal (element_to_string minutes +:+ " " +:+ element_to_string hours
            +:+ " * * *").

(** *** The scheduler object and node-cron

    node-cron is not part of the repository. Its [validate] is a
    parameter; [cron.schedule] creates a task that node-cron keeps and
    hands back, unless it refuses the options and throws; [task.stop()]
    stops a task. The tasks node-cron holds are the list [cron]; a task
    object is its index there. The function given to [cron.schedule] is
    always the arrow function of [scheduleTask], which closes over
    [cronExpression] and [task]: a task of node-cron records these two.
    A [Task] is what [await task()] does to the world [W] outside the
    scheduler and how it ends: the caller's function may throw, or reject
    with, any value. *)

Section WithCron.

Variable W : Type.
Variable Options : Type.
Variable validate : string -> bool.
(** Whether [cron.schedule] starts the task it creates, which node-cron
    reads from the options. *)
Variable autostart : Options -> bool.
(** What [cron.schedule] throws for options that node-cron refuses (a
    [RangeError] for a time zone it does not know, say); [None] for the
    options it accepts. *)
Variable refused : Options -> option exn.

Definition Task : Type := W -> ending unit * W.

Record CronTask : Type := {
  expression : string;
  func : Task;
  opts : Options;
  running : bool
}.

Record t : Type := {
  logger : list LogEntry;
  cron : list CronTask;
  scheduledTasks : list nat
}.

Definition M (A : Type) : Type := t -> completion A * t.

Definition ret {A} (a : A) : M A := fun s => (Normal a, s).

Definition bind {A B} (m : M A) (k : A -> M B) : M B :=
  fun s =>
    match m s with
    | (Normal a, s') => k a s'
    | (Throw e, s') => (Throw e, s')
    end.

Definition throw {A} (e : exn) : M A := fun s => (Throw e, s).

Definition try_catch {A} (m : M A) (handler : exn -> M A) : M A :=
  fun s =>
    match m s with
    | (Normal a, s') => (Normal a, s')
    | (Throw e, s') => handler e s'
    end.

Definition lift {A} (c : completion A) : M A := fun s => (c, s).

Notation "'do' x <- m ;; k" := (bind m (fun x => k))
  (at level 10, x name, m at level 99, k at level 200, only parsing).
Notation "'run' m ;; k" := (bind m (fun _ => k))
  (at level 10, m at level 99, k at level 200, only parsing).

(** [this.logger.info(msg)] and the like *)
Definition log (l : Logger.level) (msg : string) : M unit :=
  fun s => (Normal tt,
            {| logger := logger s ++ [(l, msg)];
               cron := cron s;
               scheduledTasks := scheduledTasks s |}).

(** [cron.schedule(cronExpression, async () => {...}, options)] *)
Definition cron_schedule (cronExpression : string) (task : Task)
    (options : Options) : M nat :=
  fun s =>
    match refused options with
    | Some err => (Throw err, s)
    | None =>
        (Normal (length (cron s)),
         {| logger := logger s;
            cron := cron s ++ [{| expression := cronExpression;
                                  func := task;
                                  opts := options;
                                  running := autostart options |}];
            scheduledTasks := scheduledTasks s |})
    end.

(** [this.scheduledTasks.push(scheduledTask)] *)
Definition push (scheduledTask : nat) : M unit :=
  fun s => (Normal tt,
            {| logger := logger s;
               cron := cron s;
               scheduledTasks := scheduledTasks s ++ [scheduledTask] |}).

Definition scheduleTask (cronExpression : string) (task : Task)
    (options : Options) : M nat :=
  try_catch
    (if negb (validate cronExpression)
     then throw (Error ("Invalid cron expression: " +:+ cronExpression))
     else
       run log Logger.info ("Scheduling task with cron expression: " +:+ cronExpression) ;;
       do scheduledTask <- cron_schedule cronExpression task options ;;
       run push scheduledTask ;;
       ret scheduledTask)
    (fun err =>
       run log Logger.error ("Failed to schedule task: " +:+ err_message err) ;;
       throw err).

(** The [for ... of] loop of [scheduleMultipleDailyTimes]; the last
    argument is the local array [scheduledTasks]. *)
Fixpoint scheduleMultipleDailyTimes_loop (times : list string) (task : Task)
    (options : Options) (scheduled : list nat) : M (list nat) :=
  match times with
  | [] => ret scheduled
  | time :: times' =>
      do cronExpression <- lift (dailyTimeToCron time) ;;
      run log Logger.info ("Scheduling task for daily time: " +:+ time +:+ " ("
                    +:+ cronExpression +:+ ")") ;;
      do scheduledTask <- scheduleTask cronExpression task options ;;
      scheduleMultipleDailyTimes_loop times' task options
        (scheduled ++ [scheduledTask])
  end.

Definition scheduleMultipleDailyTimes (times : list string) (task : Task)
    (options : Options) : M (list nat) :=
  if Nat.eqb (length times) 0
  then throw (Error "Times must be a non-empty array of time strings")
  else scheduleMultipleDailyTimes_loop times task options [].

(** [task.stop()] *)
Definition stop (c : CronTask) : CronTask :=
  {| expression := expression c; func := func c; opts := opts c;
     running := false |}.

Definition stopAllTasks : M unit :=
  fun s =>
    let s1 := snd (log Logger.info ("Stopping "
                   +:+ Js.to_string (Z.of_nat (length (scheduledTasks s)))
                   +:+ " scheduled tasks") s) in
    (Normal tt,
     {| logger := logger s1;
        cron := foldl (fun c h => alter stop h c) (cron s1) (scheduledTasks s1);
        scheduledTasks := [] |}).

(** *** Firing

    The arrow function that [scheduleTask] gives to node-cron. It is
    [async]: it ends in a promise. Its [catch (err)] block builds the line
    to log from [err.message]: when the task has thrown [null] or
    [undefined] that access throws, nothing is logged and the promise is
    rejected. *)
Definition scheduled_callback (cronExpression : string) (task : Task)
    (s : t) (w : W) : promise unit * t * W :=
  let s1 := snd (log Logger.info ("Running scheduled task: " +:+ cronExpression) s) in
  match task w with
  | (Returned _, w') => (Resolved tt, s1, w')
  | (Threw err, w') =>
      match thrown_message err with
      | Normal text =>
          (Resolved tt,
           snd (log Logger.error ("Error in scheduled task: " +:+ text) s1),
           w')
      | Throw e => (Rejected e, s1, w')
      end
  end.

(** node-cron fires a task it holds, when that task is running, by
    calling its function. [None]: the task does not fire. *)
Definition fire (h : nat) (s : t) (w : W) : option (promise unit * t * W) :=
  match cron s !! h with
  | Some c =>
      if running c then Some (scheduled_callback (expression c) (func c) s w)
      else None
  | None => None
  end.

End WithCron.

Arguments expression {W Options}.
Arguments func {W Options}.
Arguments opts {W Options}.
Arguments running {W Options}.
Arguments logger {W Options}.
Arguments cron {W Options}.
Arguments scheduledTasks {W Options}.
Arguments scheduleTask {W Options}.
Arguments scheduleMultipleDailyTimes {W Options}.
Arguments scheduleMultipleDailyTimes_loop {W Options}.
Arguments stop {W Options}.
Arguments stopAllTasks {W Options}.
Arguments scheduled_callback {W Options}.
Arguments fire {W Options}.

End Scheduler.

(** ** The messenger ([src/utils/messenger.js]) *)

Module Messenger.

(** A target as [config.json] gives it: an object, each property of which
    may be absent. *)
Record Target : Type := {
  type : option string;
  id : option Z;
  username : option string
}.

(** The first argument of [client.sendMessage]. *)
Inductive Entity : Type :=
| EntityId (n : Z)
| EntityName (name : string).

(** Truthiness of a property that holds a number, and of one that holds a
    string; an absent property is [undefined]. *)
Definition truthy_number (x : option Z) : bool :=
  match x with Some n => negb (n =? 0) | None => false end.

Definition truthy_string (x : option string) : bool :=
  match x with Some s => negb (String.eqb s "") | None => false end.

Definition is_chat (x : option string) : bool :=
  match x with Some s => String.eqb s "chat" | None => false end.

(** [`${target.type} ${target.username || target.id}`] *)
Definition describe (target : Target) : string :=
  default "undefined" (type target) +:+ " " +:+
  (if truthy_string (username target) then default "" (username target)
   else match id target with
        | Some n => Js.to_string n
        | None => "undefined"
        end).

(** [match[1]] of [errorMessage.match(/FLOOD_WAIT_(\d+)/)]: the digits
    after the leftmost [FLOOD_WAIT_] that a digit follows; [None] when the
    expression does not match. *)
Fixpoint match_FLOOD_WAIT (errorMessage : string) : option string :=
  let rest := Js.drop 11 errorMessage in
  if Js.starts_with "FLOOD_WAIT_" errorMessage
     && negb (String.eqb (Js.take_digits rest) "")
  then Some (Js.take_digits rest)
  else match errorMessage with
       | EmptyString => None
       | String _ s => match_FLOOD_WAIT s
       end.

Definition _extractFloodWaitTime (errorMessage : string) : Z :=
  match match_FLOOD_WAIT errorMessage with
  | Some digits =>
      if negb (String.eqb digits "") then Js.parseInt digits else 60
  | None => 60
  end.

Inductive Effect : Type :=
| Sent (entity : Entity) (text : string)
| Slept (ms : Z).

(** What [sendMessagesToAllTargets] can be given as [targets]:
    - an array of objects (an element that is a number, a string or a
      boolean has none of the properties read, like the empty object);
    - an array that holds [null] or [undefined]: the objects [before] the
      first such element, that element, and the number of elements
      [after] it;
    - a value that has neither a [length] nor an iterator (a number, a
      plain object);
    - [null] or [undefined]. *)
Inductive Targets : Type :=
| TArray (targets : list Target)
| TArrayHolding (before : list Target) (hole : nullish) (after : nat)
| TNotIterable
| TNullish (n : nullish).

Section WithClient.

(** The world outside: the Telegram client, the clock and the timers. *)
Variable W : Type.
Variable Timestamp : Type.
(** [await this.client.sendMessage(entity, { message })]: the [id] of
    the message sent, or the error thrown. *)
Variable client_sendMessage : W -> Entity -> string -> completion Z * W.
(** [new Date().toISOString()] *)
Variable now : W -> Timestamp.
(** [await new Promise(resolve => setTimeout(resolve, ms))] *)
Variable setTimeout : Z -> W -> W.

(** The object that [sendMessage] returns; a property that the object
    literal does not have is [None]. *)
Record Outcome : Type := {
  success : bool;
  target : Target;
  messageId : option Z;
  error : option string;
  waitTime : option Z;
  timestamp : Timestamp
}.

(** The messenger with the world it acts on. [effects] lists, oldest
    first, the sends and the pauses that happened. *)
Record t : Type := {
  world : W;
  logger : list LogEntry;
  effects : list Effect
}.

Definition M (A : Type) : Type := t -> completion A * t.

Definition ret {A} (a : A) : M A := fun s => (Normal a, s).

Definition bind {A B} (m : M A) (k : A -> M B) : M B :=
  fun s =>
    match m s with
    | (Normal a, s') => k a s'
    | (Throw e, s') => (Throw e, s')
    end.

Definition throw {A} (e : exn) : M A := fun s => (Throw e, s).

Definition try_catch {A} (m : M A) (handler : exn -> M A) : M A :=
  fun s =>
    match m s with
    | (Normal a, s') => (Normal a, s')
    | (Throw e, s') => handler e s'
    end.

(** An [async] function: what its body throws rejects its promise. *)
Definition async {A} (body : M A) : t -> promise A * t :=
  fun s =>
    match body s with
    | (Normal a, s') => (Resolved a, s')
    | (Throw e, s') => (Rejected e, s')
    end.

(** [await p] *)
Definition await {A} (p : t -> promise A * t) : M A :=
  fun s =>
    match p s with
    | (Resolved a, s') => (Normal a, s')
    | (Rejected e, s') => (Throw e, s')
    end.

Notation "'do' x <- m ;; k" := (bind m (fun x => k))
  (at level 10, x name, m at level 99, k at level 200, only parsing).
Notation "'run' m ;; k" := (bind m (fun _ => k))
  (at level 10, m at level 99, k at level 200, only parsing).

Definition log (l : Logger.level) (msg : string) : M unit :=
  fun s => (Normal tt,
            {| world := world s;
               logger := logger s ++ [(l, msg)];
               effects := effects s |}).

Definition client_send (entity : Entity) (text : string) : M Z :=
  fun s =>
    let '(r, w) := client_sendMessage (world s) entity text in
    (r, {| world := w;
           logger := logger s;
           effects := effects s ++ [Sent entity text] |}).

Definition date_now : M Timestamp := fun s => (Normal (now (world s)), s).

Definition sleep (ms : Z) : M unit :=
  fun s => (Normal tt,
            {| world := setTimeout ms (world s);
               logger := logger s;
               effects := effects s ++ [Slept ms] |}).

(** The [if]/[else if]/[else] that chooses [entity]. *)
Definition choose_entity (target : Target) : M Entity :=
  if is_chat (type target) && truthy_number (id target)
  then ret (EntityId (default 0 (id target)))
  else if truthy_string (username target)
  then ret (EntityName (default "" (username target)))
  else throw (Error "Invalid target configuration").

Definition sendMessage (target : Target) (message : string)
  : t -> promise Outcome * t :=
  async
    (try_catch
       (do entity <- choose_entity target ;;
        do result <- client_send entity message ;;
        run log Logger.info ("Message sent successfully to " +:+ describe target) ;;
        do ts <- date_now ;;
        ret {| success := true; target := target;
               messageId := Some result; error := None;
               waitTime := None; timestamp := ts |})
       (fun err =>
          if Js.includes "FLOOD_WAIT" (err_message err) then
            let waitTime := _extractFloodWaitTime (err_message err) in
            run log Logger.warn ("Rate limited! Need to wait "
                          +:+ Js.to_string waitTime
                          +:+ " seconds before sending to "
                          +:+ describe target) ;;
            do ts <- date_now ;;
            ret {| success := false; target := target;
                   messageId := None; error := Some "RATE_LIMITED";
                   waitTime := Some waitTime; timestamp := ts |}
          else
            run log Logger.error ("Failed to send message to "
                           +:+ describe target +:+ ": "
                           +:+ err_message err) ;;
            do ts <- date_now ;;
            ret {| success := false; target := target;
                   messageId := None; error := Some (err_message err);
                   waitTime := None; timestamp := ts |})).

(** [await this.sendMessage(target, message)] when [target] is [null] or
    [undefined]. Reading [target.type] throws in the [try] block; the
    [catch] block finds no [FLOOD_WAIT] in that error and builds the line
    to log from [target.type], which throws again: nothing is sent or
    logged, no outcome is returned and what follows the call is not
    run. *)
Definition sendMessage_nullish {A} (target : nullish) : M A :=
  try_catch
    (throw (cannot_read target "type"))
    (fun err =>
       if Js.includes "FLOOD_WAIT" (err_message err)
       then throw (cannot_read target "type")
       else throw (cannot_read target "type")).

(** [result.error === 'RATE_LIMITED' && result.waitTime] *)
Definition rate_limited (result : Outcome) : bool :=
  match error result with
  | Some e => String.eqb e "RATE_LIMITED"
  | None => false
  end && truthy_number (waitTime result).

(** The pause at the end of one turn of the loop. *)
Definition pause_after (result : Outcome) (delayBetweenMessages : Z)
  : M unit :=
  if rate_limited result then
    let waitMs := default 0 (waitTime result) * 1000 + 1000 in
    run log Logger.info ("Waiting " +:+ Js.to_string (waitMs / 1000)
                  +:+ " seconds due to rate limiting") ;;
    sleep waitMs
  else sleep delayBetweenMessages.

(** The [for ... of] loop; [results] is the array being filled. *)
Fixpoint sendMessagesToAllTargets_loop (targets : list Target)
    (message : string) (delayBetweenMessages : Z)
    (results : list Outcome) : M (list Outcome) :=
  match targets with
  | [] => ret results
  | target :: targets' =>
      do result <- await (sendMessage target message) ;;
      run pause_after result delayBetweenMessages ;;
      sendMessagesToAllTargets_loop targets' message delayBetweenMessages
        (results ++ [result])
  end.

(** [delayBetweenMessages] is [None] when the caller leaves it out. *)
Definition sendMessagesToAllTargets (targets : Targets) (message : string)
    (delayBetweenMessages : option Z) : t -> promise (list Outcome) * t :=
  let delayBetweenMessages := default 2000 delayBetweenMessages in
  async
    match targets with
    | TNullish n => throw (cannot_read n "length")
    | TNotIterable =>
        run log Logger.info "Starting to send messages to undefined targets" ;;
        throw (TypeError "targets is not iterable")
    | TArray targets =>
        run log Logger.info ("Starting to send messages to "
                      +:+ Js.to_string (Z.of_nat (length targets))
                      +:+ " targets") ;;
        do results <- sendMessagesToAllTargets_loop targets message
                        delayBetweenMessages [] ;;
        let successCount := length (filter (fun r => success r = true) results) in
        run log Logger.info ("Completed sending messages. Success: "
                      +:+ Js.to_string (Z.of_nat successCount) +:+ "/"
                      +:+ Js.to_string (Z.of_nat (length targets))) ;;
        ret results
    | TArrayHolding before hole after =>
        run log Logger.info ("Starting to send messages to "
                      +:+ Js.to_string (Z.of_nat (length before + 1 + after))
                      +:+ " targets") ;;
        do results <- sendMessagesToAllTargets_loop before message
                        delayBetweenMessages [] ;;
        sendMessage_nullish hole
    end.

End WithClient.

Arguments success {Timestamp}.
Arguments target {Timestamp}.
Arguments messageId {Timestamp}.
Arguments error {Timestamp}.
Arguments waitTime {Timestamp}.
Arguments timestamp {Timestamp}.
Arguments world {W}.
Arguments logger {W}.
Arguments effects {W}.
Arguments rate_limited {Timestamp}.
Arguments pause_after {W Timestamp}.
Arguments sendMessage {W Timestamp}.
Arguments sendMessage_nullish {W A}.
Arguments sendMessagesToAllTargets_loop {W Timestamp}.
Arguments sendMessagesToAllTargets {W Timestamp}.

End Messenger.

(** ** The task of the application ([main], in the entry file)

    [sendTask] is the task that [main] gives to the scheduler: it awaits
    [messenger.sendMessagesToAllTargets] on the targets, the message and
    the delay of [config.json]. The world of this task is the messenger. *)

Module Main.

Section WithClient.

Variable W : Type.
Variable Timestamp : Type.
Variable client_sendMessage : W -> Messenger.Entity -> string -> completion Z * W.
Variable now : W -> Timestamp.
Variable setTimeout : Z -> W -> W.

(** [config.advanced.messageDelay || 2000] *)
Definition messageDelay_or_default (messageDelay : option Z) : Z :=
  if Messenger.truthy_number messageDelay then default 0 messageDelay else 2000.

Definition sendTask (targets : Messenger.Targets) (message : string)
    (messageDelay : option Z) : Scheduler.Task (Messenger.t W) :=
  fun s =>
    match Messenger.sendMessagesToAllTargets client_sendMessage now setTimeout
            targets message (Some (messageDelay_or_default messageDelay)) s with
    | (Resolved _, s') => (Returned tt, s')
    | (Rejected e, s') => (Threw (ThrownError e), s')
    end.

End WithClient.

Arguments sendTask {W Timestamp}.

End Main.

(** ** The session manager ([src/utils/session.js])

    The file system is the world of the session manager; [fs] and [path]
    of Node.js are parameters. [existsSync] never throws; the other
    functions of [fs] may throw, and may change the file system. *)

Module SessionManager.

Section WithFs.

Variable FS : Type.
Variable path_resolve : string -> string.
Variable path_join : string -> string -> string.
Variable existsSync : string -> FS -> bool.
(** [fs.mkdirSync(dir, { recursive: true })] *)
Variable mkdirSync : string -> FS -> completion unit * FS.
(** [fs.readFileSync(file, 'utf8')] *)
Variable readFileSync : string -> FS -> completion string.
Variable writeFileSync : string -> string -> FS -> completion unit * FS.
Variable unlinkSync : string -> FS -> completion unit * FS.

(** The object: its two paths. *)
Record t : Type := {
  sessionDir : string;
  sessionFilePath : string
}.

(** What the methods act on: the file system and the logger. *)
Record world : Type := {
  fs : FS;
  logger : list LogEntry
}.

Definition M (A : Type) : Type := world -> completion A * world.

Definition ret {A} (a : A) : M A := fun w => (Normal a, w).

Definition bind {A B} (m : M A) (k : A -> M B) : M B :=
  fun w =>
    match m w with
    | (Normal a, w') => k a w'
    | (Throw e, w') => (Throw e, w')
    end.

Definition try_catch {A} (m : M A) (handler : exn -> M A) : M A :=
  fun w =>
    match m w with
    | (Normal a, w') => (Normal a, w')
    | (Throw e, w') => handler e w'
    end.

Notation "'do' x <- m ;; k" := (bind m (fun x => k))
  (at level 10, x name, m at level 99, k at level 200, only parsing).
Notation "'run' m ;; k" := (bind m (fun _ => k))
  (at level 10, m at level 99, k at level 200, only parsing).

Definition log (l : Logger.level) (msg : string) : M unit :=
  fun w => (Normal tt, {| fs := fs w; logger := logger w ++ [(l, msg)] |}).

Definition exists_ (p : string) : M bool :=
  fun w => (Normal (existsSync p (fs w)), w).

Definition mkdir (p : string) : M unit :=
  fun w => let '(r, f) := mkdirSync p (fs w) in
           (r, {| fs := f; logger := logger w |}).

Definition read (p : string) : M string :=
  fun w => (readFileSync p (fs w), w).

Definition write (p content : string) : M unit :=
  fun w => let '(r, f) := writeFileSync p content (fs w) in
           (r, {| fs := f; logger := logger w |}).

Definition unlink (p : string) : M unit :=
  fun w => let '(r, f) := unlinkSync p (fs w) in
           (r, {| fs := f; logger := logger w |}).

(** [new SessionManager(logger, sessionDir)]; [sessionDir] is [None] when
    the caller leaves it out. *)
Definition constructor (sessionDir : option string) : M t :=
  let sessionDir := path_resolve (default "./session" sessionDir) in
  let sessionFilePath := path_join sessionDir "session.json" in
  do present <- exists_ sessionDir ;;
  run (if negb present then
         run mkdir sessionDir ;;
         log Logger.info ("Created session directory: " +:+ sessionDir)
       else ret tt) ;;
  ret {| sessionDir := sessionDir; sessionFilePath := sessionFilePath |}.

Definition getSession (this : t) : M string :=
  do found <-
    try_catch
      (do present <- exists_ (sessionFilePath this) ;;
       if present then
         do session <- read (sessionFilePath this) ;;
         run log Logger.info "Session loaded successfully" ;;
         ret (Some session)
       else ret None)
      (fun err =>
         run log Logger.error ("Failed to read session file: " +:+ err_message err) ;;
         ret None) ;;
  match found with
  | Some session => ret session
  | None => ret ""
  end.

Definition saveSession (this : t) (session : string) : M bool :=
  try_catch
    (run write (sessionFilePath this) session ;;
     run log Logger.info "Session saved successfully" ;;
     ret true)
    (fun err =>
       run log Logger.error ("Failed to save session: " +:+ err_message err) ;;
       ret false).

Definition clearSession (this : t) : M bool :=
  try_catch
    (do present <- exists_ (sessionFilePath this) ;;
     run (if present then
            run unlink (sessionFilePath this) ;;
            log Logger.info "Session cleared successfully"
          else ret tt) ;;
     ret true)
    (fun err =>
       run log Logger.error ("Failed to clear session: " +:+ err_message err) ;;
       ret false).

End WithFs.

Arguments sessionDir : clear implicits.
Arguments sessionFilePath : clear implicits.
Arguments fs {FS}.
Arguments logger {FS}.
Arguments constructor {FS}.
Arguments getSession {FS}.
Arguments saveSession {FS}.
Arguments clearSession {FS}.

End SessionManager.


(** ** Authentication ([TelegramAuth], the class that [main] loads as
    [./utils/auth])

    The Telegram client and the console are the world [W] outside; the
    logger is the one of the session manager, which [main] gives to both.
    [client.start] receives the callbacks, which act on all of this, and
    may call them as it likes. A call to the client may throw any value;
    both methods catch what their body throws and log its [message]. *)

Module TelegramAuth.

(** The [apiId] that [main] passes is the result of [parseInt]: a number
    or [NaN]; a caller may also leave it out. *)
Inductive ApiId : Type :=
| ApiNumber (n : Z)
| ApiNaN
| ApiUndefined.

Definition typeof (apiId : ApiId) : string :=
  match apiId with
  | ApiNumber _ | ApiNaN => "number"
  | ApiUndefined => "undefined"
  end.

Definition ApiId_to_string (apiId : ApiId) : string :=
  match apiId with
  | ApiNumber n => Js.to_string n
  | ApiNaN => "NaN"
  | ApiUndefined => "undefined"
  end.

Definition truthy_ApiId (apiId : ApiId) : bool :=
  match apiId with
  | ApiNumber n => negb (n =? 0)
  | ApiNaN | ApiUndefined => false
  end.

Section WithClient.

Variable W : Type.
Variable FS : Type.
Variable User : Type.
(** [await this.client.isUserAuthorized()] *)
Variable isUserAuthorized : W -> ending bool * W.
(** [await this.client.getMe()] *)
Variable getMe : W -> ending User * W.
(** [this.client.session.save()] *)
Variable session_save : W -> ending string.
(** The answer typed at the prompt of [rl.question]. *)
Variable question : string -> W -> string * W.
Variable writeFileSync : string -> string -> FS -> completion unit * FS.

Record t : Type := {
  outside : W;
  disk : SessionManager.world FS
}.

(** The body of a [try] block: it may end by throwing any value. *)
Definition M (A : Type) : Type := t -> ending A * t.

Definition ret {A} (a : A) : M A := fun s => (Returned a, s).

Definition bind {A B} (m : M A) (k : A -> M B) : M B :=
  fun s =>
    match m s with
    | (Returned a, s') => k a s'
    | (Threw err, s') => (Threw err, s')
    end.

(** [throw new Error(...)] *)
Definition throw {A} (e : exn) : M A := fun s => (Threw (ThrownError e), s).

(** What ends in a [completion] ends the same way here. *)
Definition lift {A} (c : completion A) : M A :=
  fun s =>
    match c with
    | Normal a => (Returned a, s)
    | Throw e => (Threw (ThrownError e), s)
    end.

(** An [async] method whose body is [try { ... } catch (err) { ... }]:
    what the [try] block throws goes to the handler, and what the handler
    throws rejects the promise. *)
Definition async_try_catch {A} (body : M A)
    (handler : thrown -> t -> completion A * t) : t -> promise A * t :=
  fun s =>
    match body s with
    | (Returned a, s') => (Resolved a, s')
    | (Threw err, s') =>
        match handler err s' with
        | (Normal a, s'') => (Resolved a, s'')
        | (Throw e, s'') => (Rejected e, s'')
        end
    end.

Notation "'do' x <- m ;; k" := (bind m (fun x => k))
  (at level 10, x name, m at level 99, k at level 200, only parsing).
Notation "'run' m ;; k" := (bind m (fun _ => k))
  (at level 10, m at level 99, k at level 200, only parsing).

Definition log (l : Logger.level) (msg : string) : M unit :=
  fun s =>
    (Returned tt,
     {| outside := outside s;
        disk := {| SessionManager.fs := SessionManager.fs (disk s);
                   SessionManager.logger :=
                     SessionManager.logger (disk s) ++ [(l, msg)] |} |}).

(** [this.logger.error(`${prefix}${err.message}`); return result] in a
    [catch (err)] block: reading [err.message] throws when [err] is
    [null] or [undefined], before anything is logged. *)
Definition log_message_and_return {A} (prefix : string) (result : A)
    (err : thrown) : t -> completion A * t :=
  fun s =>
    match thrown_message err with
    | Normal text => (Normal result, snd (log Logger.error (prefix +:+ text) s))
    | Throw e => (Throw e, s)
    end.

(** A call to the client that acts on the world outside only. *)
Definition on_client {A} (f : W -> ending A * W) : M A :=
  fun s => let '(r, w) := f (outside s) in
           (r, {| outside := w; disk := disk s |}).

(** [this.sessionManager.saveSession(session)] *)
Definition sessionManager_saveSession (sessionManager : SessionManager.t)
    (session : string) : M bool :=
  fun s => let '(r, d) := SessionManager.saveSession writeFileSync
                            sessionManager session (disk s) in
           lift r {| outside := outside s; disk := d |}.

(** The object that [authenticate] gives to [client.start]. The client
    calls [onError] with the error it met, whatever that value is. *)
Record Callbacks : Type := {
  phoneNumber : M string;
  password : M string;
  phoneCode : M string;
  onError : thrown -> M unit
}.

(** [await this.client.start(callbacks)] *)
Variable client_start : Callbacks -> M unit.

Definition getUserInput (q : string) : M string :=
  fun s => let '(answer, w) := question q (outside s) in
           (Returned answer, {| outside := w; disk := disk s |}).

Definition callbacks (phone : string) : Callbacks :=
  {| phoneNumber :=
       run log Logger.info ("Using phone number: " +:+ phone) ;;
       ret phone;
     password :=
       do password <- getUserInput "Please enter your 2FA password: " ;;
       run log Logger.info "Password entered for 2FA" ;;
       ret password;
     phoneCode :=
       do code <- getUserInput "Please enter the code you received: " ;;
       run log Logger.info "Authentication code entered" ;;
       ret code;
     onError := fun err =>
       do text <- lift (thrown_message err) ;;
       log Logger.error ("Authentication error: " +:+ text) |}.

(** [phoneNumber] and [apiHash] are [None] when they are [undefined]. *)
Definition authenticate (sessionManager : SessionManager.t)
    (phoneNumber : option string) (apiId : ApiId) (apiHash : option string)
  : t -> promise bool * t :=
  async_try_catch
       (run log Logger.info ("Authentication attempt with phone: "
                             +:+ default "undefined" phoneNumber) ;;
        run log Logger.info ("API ID type: " +:+ typeof apiId +:+ ", value: "
                             +:+ ApiId_to_string apiId) ;;
        if negb (Messenger.truthy_string phoneNumber) then
          run log Logger.error "Phone number is undefined or empty" ;;
          ret false
        else
          do phoneNumber <-
            (if negb (Js.starts_with "+" (default "" phoneNumber)) then
               run log Logger.warn
                     "Phone number does not start with +, adding it automatically" ;;
               ret ("+" +:+ default "" phoneNumber)
             else ret (default "" phoneNumber)) ;;
          if negb (truthy_ApiId apiId) || negb (Messenger.truthy_string apiHash)
          then
            run log Logger.error "API credentials are missing" ;;
            ret false
          else
            do authorized <- on_client isUserAuthorized ;;
            if authorized then
              run log Logger.info "User already authorized. Using saved session." ;;
              ret true
            else
              run log Logger.info
                    "User not authorized. Starting authentication process..." ;;
              run client_start (callbacks phoneNumber) ;;
              do authorized <- on_client isUserAuthorized ;;
              if authorized then
                run log Logger.info "Successfully logged in!" ;;
                do session <- on_client (fun w => (session_save w, w)) ;;
                run sessionManager_saveSession sessionManager session ;;
                ret true
              else throw (Error "Authentication failed for unknown reason"))
       (log_message_and_return "Authentication failed: " false).

(** [None] is [null]. *)
Definition getCurrentUser : t -> promise (option User) * t :=
  async_try_catch
       (do authorized <- on_client isUserAuthorized ;;
        if authorized then
          do me <- on_client getMe ;;
          ret (Some me)
        else ret None)
       (log_message_and_return "Failed to get current user: " None).

End WithClient.

Arguments outside {W FS}.
Arguments disk {W FS}.
Arguments authenticate {W FS}.
Arguments getCurrentUser {W FS User}.
Arguments callbacks {W FS}.

End TelegramAuth.


(** ** Concrete surroundings, to run the model

    [Scripted] is a transport that answers the sends from a list of replies
    (and succeeds with id [0] once the list is used up), with a clock that
    only timers advance; [validate5] accepts the cron expressions of five
    fields that are each a number of the field's range, [*] or [*/n]: the
    forms this program builds. node-cron accepts more. *)

Module Scripted.

Record world : Type := {
  clock : Z;
  replies : list (completion Z)
}.

Definition client_sendMessage (w : world) (_ : Messenger.Entity) (_ : string)
  : completion Z * world :=
  match replies w with
  | r :: rs => (r, {| clock := clock w; replies := rs |})
  | [] => (Normal 0, w)
  end.

Definition now (w : world) : Z := clock w.

(** A timer of Node.js: a delay below 1 or above 2^31-1 is 1. *)
Definition setTimeout (ms : Z) (w : world) : world :=
  {| clock := clock w + (if (ms <? 1) || (ms >? 2147483647) then 1 else ms);
     replies := replies w |}.

Definition start (rs : list (completion Z)) : Messenger.t world :=
  {| Messenger.world := {| clock := 0; replies := rs |};
     Messenger.logger := [];
     Messenger.effects := [] |}.

Definition sendMessage :=
  Messenger.sendMessage client_sendMessage now.

Definition sendMessagesToAllTargets :=
  Messenger.sendMessagesToAllTargets client_sendMessage now setTimeout.

Definition field_ok (lo hi : Z) (f : string) : bool :=
  if String.eqb f "*" then true
  else if Js.starts_with "*/" f then
    let n := Js.drop 2 f in
    negb (String.eqb n "") && Js.all_digits n && (1 <=? Js.digits_value 0 n)
  else
    negb (String.eqb f "") && Js.all_digits f
    && (lo <=? Js.digits_value 0 f) && (Js.digits_value 0 f <=? hi).

Definition validate5 (e : string) : bool :=
  match Js.split " " e with
  | [mi; h; d; mo; wd] =>
      field_ok 0 59 mi && field_ok 0 23 h && field_ok 1 31 d
      && field_ok 1 12 mo && field_ok 0 7 wd
  | _ => false
  end.

(** A scheduler with nothing scheduled, whose tasks act on [W]. *)
Definition fresh (W : Type) : Scheduler.t W unit :=
  {| Scheduler.logger := [];
     Scheduler.cron := [];
     Scheduler.scheduledTasks := [] |}.

(** No options are given: node-cron starts every task it creates and
    refuses nothing. *)
Definition scheduleTask {W : Type} :=
  Scheduler.scheduleTask (W := W) (Options := unit) validate5 (fun _ => true)
    (fun _ => None).

Definition scheduleMultipleDailyTimes {W : Type} :=
  Scheduler.scheduleMultipleDailyTimes (W := W) (Options := unit)
    validate5 (fun _ => true) (fun _ => None).

(** Options that are a time zone, of which node-cron knows [UTC] only. *)
Definition timezone_refused (timezone : string) : option exn :=
  if String.eqb timezone "UTC" then None
  else Some (RangeError ("Invalid time zone specified: " +:+ timezone)).

(** The task of the application on the scripted transport. *)
Definition sendTask :=
  Main.sendTask client_sendMessage now setTimeout.

(** A task that does nothing. *)
Definition idle : Scheduler.Task unit := fun w => (Returned tt, w).

(** A task that throws the value it is made of, and counts its runs. *)
Definition throwing (err : thrown) : Scheduler.Task nat :=
  fun runs => (Threw err, S runs).


(** Three targets: a chat, a group, and one that designates nothing. *)
Definition chat : Messenger.Target :=
  {| Messenger.type := Some "chat"; Messenger.id := Some 5;
     Messenger.username := None |}.
Definition group : Messenger.Target :=
  {| Messenger.type := Some "group"; Messenger.id := None;
     Messenger.username := Some "g" |}.
Definition nobody : Messenger.Target :=
  {| Messenger.type := Some "group"; Messenger.id := None;
     Messenger.username := None |}.


End Scripted.

(** ** A file system in memory, to run the session manager

    Files and directories by path; when [locked], every read and every
    change is refused. Paths are taken as they are. *)

Module InMemory.

Record FS : Type := {
  files : list (string * string);
  dirs : list string;
  locked : bool
}.

Fixpoint lookup (p : string) (l : list (string * string)) : option string :=
  match l with
  | [] => None
  | (q, content) :: l' => if String.eqb p q then Some content else lookup p l'
  end.

Fixpoint remove (p : string) (l : list (string * string)) : list (string * string) :=
  match l with
  | [] => []
  | (q, content) :: l' =>
      if String.eqb p q then remove p l' else (q, content) :: remove p l'
  end.

Definition path_resolve (p : string) : string := p.

Definition path_join (a b : string) : string := a +:+ "/" +:+ b.

Definition existsSync (p : string) (f : FS) : bool :=
  match lookup p (files f) with
  | Some _ => true
  | None => existsb (String.eqb p) (dirs f)
  end.

Definition mkdirSync (p : string) (f : FS) : completion unit * FS :=
  if locked f then (Throw (Error "EACCES: permission denied, mkdir"), f)
  else (Normal tt, {| files := files f; dirs := p :: dirs f; locked := false |}).

Definition readFileSync (p : string) (f : FS) : completion string :=
  if locked f then Throw (Error "EACCES: permission denied, open")
  else match lookup p (files f) with
       | Some content => Normal content
       | None => Throw (Error "ENOENT: no such file or directory, open")
       end.

Definition writeFileSync (p content : string) (f : FS) : completion unit * FS :=
  if locked f then (Throw (Error "EACCES: permission denied, open"), f)
  else (Normal tt, {| files := (p, content) :: remove p (files f);
                      dirs := dirs f; locked := false |}).

Definition unlinkSync (p : string) (f : FS) : completion unit * FS :=
  if locked f then (Throw (Error "EACCES: permission denied, unlink"), f)
  else match lookup p (files f) with
       | Some _ => (Normal tt, {| files := remove p (files f);
                                  dirs := dirs f; locked := false |})
       | None => (Throw (Error "ENOENT: no such file or directory, unlink"), f)
       end.

Definition empty : SessionManager.world FS :=
  {| SessionManager.fs := {| files := []; dirs := []; locked := false |};
     SessionManager.logger := [] |}.

Definition readonly : SessionManager.world FS :=
  {| SessionManager.fs := {| files := [("./session/session.json", "old")];
                             dirs := ["./session"]; locked := true |};
     SessionManager.logger := [] |}.

Definition constructor :=
  SessionManager.constructor path_resolve path_join existsSync mkdirSync.
Definition getSession :=
  SessionManager.getSession existsSync readFileSync.
Definition saveSession :=
  SessionManager.saveSession writeFileSync.
Definition clearSession :=
  SessionManager.clearSession existsSync unlinkSync.

(** The session manager of the application. *)
Definition manager : SessionManager.t :=
  {| SessionManager.sessionDir := "./session";
     SessionManager.sessionFilePath := "./session/session.json" |}.

End InMemory.


(** ** A scripted client, to run the authentication

    The client answers [isUserAuthorized] from a list (and says no once
    the list is used up); its [start] asks for the phone number and for
    the code, then ends as [start_reply] says. *)

Module ScriptedClient.

Record world : Type := {
  auth_replies : list (ending bool);
  start_reply : ending unit;
  session : ending string;
  typed : list string
}.

Definition isUserAuthorized (w : world) : ending bool * world :=
  match auth_replies w with
  | r :: rs => (r, {| auth_replies := rs; start_reply := start_reply w;
                      session := session w; typed := typed w |})
  | [] => (Returned false, w)
  end.

Definition getMe (w : world) : ending string * world :=
  (Returned "me", w).

Definition session_save (w : world) : ending string := session w.

Definition question (_ : string) (w : world) : string * world :=
  match typed w with
  | a :: rest => (a, {| auth_replies := auth_replies w;
                        start_reply := start_reply w;
                        session := session w; typed := rest |})
  | [] => (EmptyString, w)
  end.

Definition state : Type := TelegramAuth.t world InMemory.FS.

Definition client_start
    (cbs : TelegramAuth.Callbacks world InMemory.FS)
  : state -> ending unit * state :=
  fun s =>
    let s1 := snd (TelegramAuth.phoneNumber _ _ cbs s) in
    let s2 := snd (TelegramAuth.phoneCode _ _ cbs s1) in
    (start_reply (TelegramAuth.outside s2), s2).

Definition authenticate :=
  TelegramAuth.authenticate isUserAuthorized session_save question
    InMemory.writeFileSync client_start.

Definition getCurrentUser :=
  TelegramAuth.getCurrentUser (FS := InMemory.FS) isUserAuthorized getMe.

(** A client that is not logged in yet, logs in through [start], and
    whose session is then ["1BQANOTEuMTA4"]; on an empty disk. *)
Definition logged_out : state :=
  {| TelegramAuth.outside :=
       {| auth_replies := [Returned false; Returned true];
          start_reply := Returned tt;
          session := Returned "1BQANOTEuMTA4";
          typed := ["12345"] |};
     TelegramAuth.disk := InMemory.empty |}.

(** A client that is logged in already. *)
Definition logged_in : state :=
  {| TelegramAuth.outside :=
       {| auth_replies := [Returned true; Returned true];
          start_reply := Returned tt;
          session := Returned "1BQANOTEuMTA4";
          typed := [] |};
     TelegramAuth.disk := InMemory.empty |}.

(** [phone] with the [+] that [authenticate] adds when it is missing. *)
Definition with_plus (phone : string) : string :=
  if Js.starts_with "+" phone then phone else "+" +:+ phone.

End ScriptedClient.


(** ** Vocabulary of the specification *)

Module Spec.

(** A number below 100 written with two digits. *)
Definition two_digits (n : Z) : string :=
  if n <? 10 then "0" +:+ Js.to_string n else Js.to_string n.

(** The zero-padded [HH:MM] strings, from [00:00] to [23:59]. *)
Definition HH_MM (time : string) : Prop :=
  exists h m, 0 <= h <= 23 /\ 0 <= m <= 59
              /\ time = two_digits h +:+ ":" +:+ two_digits m.

(** [time] writes the hour [h] and the minute [m]: the minute with two
    digits, the hour with two digits or, below ten, with one. *)
Definition time_of_day (time : string) (h m : Z) : Prop :=
  0 <= h <= 23 /\ 0 <= m <= 59
  /\ (time = two_digits h +:+ ":" +:+ two_digits m
      \/ (h <= 9 /\ time = Js.to_string h +:+ ":" +:+ two_digits m)).

(** [M H * * *] *)
Definition daily_cron (h m : Z) : string :=
  Js.to_string m +:+ " " +:+ Js.to_string h +:+ " * * *".

Definition same_result (a b : completion string) : bool :=
  match a, b with
  | Normal x, Normal y => String.eqb x y
  | Throw (Error x), Throw (Error y) => String.eqb x y
  | _, _ => false
  end.

(** [dailyTimeToCron] gives [M H * * *] on both spellings of the hour [h]
    and the minute [m]. *)
Definition daily_check (h m : Z) : bool :=
  same_result
    (Scheduler.dailyTimeToCron (two_digits h +:+ ":" +:+ two_digits m))
    (Normal (daily_cron h m))
  && ((9 <? h)
      || same_result
           (Scheduler.dailyTimeToCron (Js.to_string h +:+ ":" +:+ two_digits m))
           (Normal (daily_cron h m))).


(** The entity that a target designates, if any. *)
Definition entity_of (target : Messenger.Target) : option Messenger.Entity :=
  if Messenger.is_chat (Messenger.type target)
     && Messenger.truthy_number (Messenger.id target)
  then Some (Messenger.EntityId (default 0 (Messenger.id target)))
  else if Messenger.truthy_string (Messenger.username target)
  then Some (Messenger.EntityName (default "" (Messenger.username target)))
  else None.

(** The pause, in milliseconds, that follows an outcome. *)
Definition pause_of {Timestamp} (delay : Z) (r : Messenger.Outcome Timestamp) : Z :=
  if Messenger.rate_limited r
  then default 0 (Messenger.waitTime r) * 1000 + 1000
  else delay.

(** The sends and pauses of a run with the outcomes [rs]: for each target
    in turn, its send (when the target designates an entity), then its
    pause. *)
Definition trace {Timestamp} (message : string) (delay : Z)
    (rs : list (Messenger.Outcome Timestamp)) : list Messenger.Effect :=
  flat_map
    (fun r =>
       match entity_of (Messenger.target r) with
       | Some entity => [Messenger.Sent entity message]
       | None => []
       end ++ [Messenger.Slept (pause_of delay r)])
    rs.

(** [targets] is an ordered sequence of target objects. *)
Definition sequence_of_targets (targets : Messenger.Targets) : bool :=
  match targets with
  | Messenger.TArray _ => true
  | _ => false
  end.

(** The targets that come before anything that cannot be handled: all of
    them in a sequence of target objects. *)
Definition reached (targets : Messenger.Targets) : list Messenger.Target :=
  match targets with
  | Messenger.TArray targets => targets
  | Messenger.TArrayHolding before _ _ => before
  | Messenger.TNotIterable | Messenger.TNullish _ => []
  end.

End Spec.

(** ** The life of a scheduler

    A scheduler starts from its constructor and is then only used through
    its methods, while node-cron fires the tasks it holds. *)

Module Lifecycle.

Section WithCron.

Variable W : Type.
Variable Options : Type.
Variable validate : string -> bool.
Variable autostart : Options -> bool.
Variable refused : Options -> option exn.

(** [constructor(logger)]: [this.scheduledTasks = []]; node-cron holds no
    task yet. *)
Definition constructed : Scheduler.t W Options :=
  {| Scheduler.logger := [];
     Scheduler.cron := [];
     Scheduler.scheduledTasks := [] |}.

(** What happens to a scheduler: a call of one of its methods, or the
    firing of a task by node-cron. *)
Inductive call : Type :=
| ScheduleTask (cronExpression : string) (task : Scheduler.Task W)
    (options : Options)
| ScheduleMultipleDailyTimes (times : list string) (task : Scheduler.Task W)
    (options : Options)
| StopAllTasks
| Fire (h : nat).

(** The scheduler and the world after a call, whether it returned or
    threw. *)
Definition after_call (sw : Scheduler.t W Options * W) (c : call)
  : Scheduler.t W Options * W :=
  match c with
  | ScheduleTask cronExpression task options =>
      (snd (Scheduler.scheduleTask validate autostart refused cronExpression
              task options (fst sw)), snd sw)
  | ScheduleMultipleDailyTimes times task options =>
      (snd (Scheduler.scheduleMultipleDailyTimes validate autostart refused
              times task options (fst sw)), snd sw)
  | StopAllTasks => (snd (Scheduler.stopAllTasks (fst sw)), snd sw)
  | Fire h =>
      match Scheduler.fire h (fst sw) (snd sw) with
      | Some (_, s', w') => (s', w')
      | None => sw
      end
  end.

Definition after_calls (calls : list call) (sw : Scheduler.t W Options * W)
  : Scheduler.t W Options * W :=
  foldl after_call sw calls.

(** The tasks that the scheduler owns are distinct tasks of node-cron, and
    every running task of node-cron is owned. *)
Definition well_formed (s : Scheduler.t W Options) : Prop :=
  NoDup (Scheduler.scheduledTasks s)
  /\ (forall h : nat, h ∈ Scheduler.scheduledTasks s ->
                      (h < length (Scheduler.cron s))%nat)
  /\ (forall (h : nat) c, Scheduler.cron s !! h = Some c ->
                          Scheduler.running c = true ->
                          h ∈ Scheduler.scheduledTasks s).

End WithCron.

Arguments constructed {W Options}.
Arguments ScheduleTask {W Options}.
Arguments ScheduleMultipleDailyTimes {W Options}.
Arguments StopAllTasks {W Options}.
Arguments Fire {W Options}.
Arguments after_call {W Options}.
Arguments after_calls {W Options}.
Arguments well_formed {W Options}.

End Lifecycle.


(** ** What a run of the messenger leaves behind *)

Module Run.

(** The sends among some effects, and the pauses. *)
Definition sends (effects : list Messenger.Effect)
  : list (Messenger.Entity * string) :=
  flat_map (fun e => match e with
                     | Messenger.Sent entity text => [(entity, text)]
                     | Messenger.Slept _ => []
                     end) effects.

Definition pauses (effects : list Messenger.Effect) : list Z :=
  flat_map (fun e => match e with
                     | Messenger.Sent _ _ => []
                     | Messenger.Slept ms => [ms]
                     end) effects.

(** The three kinds of object that [sendMessage] builds. *)
Definition well_shaped {Timestamp} (r : Messenger.Outcome Timestamp) : Prop :=
  (Messenger.success r = true
   /\ (exists n, Messenger.messageId r = Some n)
   /\ Messenger.error r = None /\ Messenger.waitTime r = None)
  \/ (Messenger.success r = false
      /\ Messenger.messageId r = None
      /\ Messenger.error r = Some "RATE_LIMITED"
      /\ exists n, Messenger.waitTime r = Some n /\ 0 <= n)
  \/ (Messenger.success r = false
      /\ Messenger.messageId r = None
      /\ (exists msg, Messenger.error r = Some msg)
      /\ Messenger.waitTime r = None).

End Run.


(** * Properties *)

(** ** The matcher agrees with the meaning of the expressions *)

Module RegexFacts.
Import Regex.

Lemma append_nil_l (s : string) : EmptyString +:+ s = s.
Proof. reflexivity. Qed.

Lemma append_cons (c : ascii) (s1 s2 : string) :
  String c s1 +:+ s2 = String c (s1 +:+ s2).
Proof. reflexivity. Qed.

Lemma append_empty_inv (s1 s2 : string) :
  EmptyString = s1 +:+ s2 -> s1 = EmptyString /\ s2 = EmptyString.
Proof.
  destruct s1; rewrite ?append_nil_l, ?append_cons; [| discriminate].
  intros E. split; [reflexivity | symmetry; exact E].
Qed.

Lemma nullable_denote (r : t) : nullable r = true <-> denote r EmptyString.
Proof.
  induction r as [| | lo hi | r1 IH1 r2 IH2 | r1 IH1 r2 IH2 | r1 IH1]; simpl.
  - split; [discriminate | tauto].
  - tauto.
  - split; [discriminate | intros (c & E & _); discriminate].
  - rewrite andb_true_iff, IH1, IH2. split.
    + intros [H1 H2]. exists EmptyString, EmptyString. auto.
    + intros (s1 & s2 & E & H1 & H2).
      destruct (append_empty_inv _ _ E) as [-> ->]. auto.
  - rewrite orb_true_iff, IH1, IH2. tauto.
  - tauto.
Qed.

Lemma deriv_denote (c : ascii) (r : t) :
  forall s, denote (deriv c r) s <-> denote r (String c s).
Proof.
  induction r as [| | lo hi | r1 IH1 r2 IH2 | r1 IH1 r2 IH2 | r1 IH1];
    intros s; simpl.
  - tauto.
  - split; [tauto | discriminate].
  - destruct (in_class lo hi c) eqn:E; simpl.
    + split.
      * intros ->. exists c. auto.
      * intros (c' & Ec & _). congruence.
    + split; [tauto |].
      intros (c' & Ec & H). injection Ec as -> _. congruence.
  - assert (Hcons : (exists s1 s2, s = s1 +:+ s2 /\ denote (deriv c r1) s1 /\ denote r2 s2)
                    <-> (exists s1 s2, String c s = String c s1 +:+ s2
                                       /\ denote r1 (String c s1) /\ denote r2 s2)).
    { split; intros (s1 & s2 & E & H1 & H2); exists s1, s2.
      - subst s. rewrite <- IH1. auto.
      - rewrite append_cons in E. injection E as ->. rewrite IH1. auto. }
    destruct (nullable r1) eqn:N; simpl.
    + rewrite Hcons, IH2. split.
      * intros [(s1 & s2 & E & H1 & H2) | H].
        -- exists (String c s1), s2. auto.
        -- exists EmptyString, (String c s).
           split; [reflexivity | split; [apply nullable_denote, N | exact H]].
      * intros (s1 & s2 & E & H1 & H2).
        destruct s1 as [| c' s1]; rewrite ?append_nil_l, ?append_cons in E.
        -- right. subst s2. exact H2.
        -- left. injection E as <- E. exists s1, s2.
           rewrite append_cons. subst s. auto.
    + rewrite Hcons. split.
      * intros (s1 & s2 & E & H1 & H2). exists (String c s1), s2. auto.
      * intros (s1 & s2 & E & H1 & H2).
        destruct s1 as [| c' s1]; rewrite ?append_nil_l, ?append_cons in E.
        -- apply nullable_denote in H1. congruence.
        -- injection E as <- E. exists s1, s2.
           rewrite append_cons. subst s. auto.
  - rewrite IH1, IH2. tauto.
  - rewrite IH1. split; [tauto | intros [E | H]; [discriminate | exact H]].
Qed.

(** The derivative matcher decides the language of the expression. *)
Theorem test_denote (s : string) :
  forall r, test r s = true <-> denote r s.
Proof.
  induction s as [| c s IH]; intros r; simpl.
  - apply nullable_denote.
  - rewrite IH. apply deriv_denote.
Qed.

End RegexFacts.

(** ** Conversions of the scheduler *)

Module ConversionFacts.
Import Scheduler.

Ltac case_range :=
  match goal with
  | |- context [(?v <? ?a) || (?v >? ?b)] =>
      destruct (Z.ltb_spec v a); destruct (Z.gtb_spec v b); simpl
  end.

(** C5. For every integer [value] and every [unit], [intervalToCron]
    returns exactly [*/v * * * *] for minutes with 1 <= v <= 59,
    [0 */v * * *] for hours with 1 <= v <= 23 and [0 0 */v * *] for days
    with 1 <= v <= 30, and throws an error in every other case: a value
    outside the range of its unit, or a unit that is none of the three. *)
Theorem intervalToCron_spec (value : Z) (unit : string) :
  (unit = "minutes" -> 1 <= value <= 59 ->
   intervalToCron value unit
   = Normal ("*/" +:+ Js.to_string value +:+ " * * * *"))
  /\ (unit = "hours" -> 1 <= value <= 23 ->
      intervalToCron value unit
      = Normal ("0 */" +:+ Js.to_string value +:+ " * * *"))
  /\ (unit = "days" -> 1 <= value <= 30 ->
      intervalToCron value unit
      = Normal ("0 0 */" +:+ Js.to_string value +:+ " * *"))
  /\ (~ (unit = "minutes" /\ 1 <= value <= 59) ->
      ~ (unit = "hours" /\ 1 <= value <= 23) ->
      ~ (unit = "days" /\ 1 <= value <= 30) ->
      exists msg, intervalToCron value unit = Throw (Error msg)).
Proof.
  unfold intervalToCron.
  repeat split.
  - intros -> Hv. simpl. case_range; (reflexivity || lia).
  - intros -> Hv. simpl. case_range; (reflexivity || lia).
  - intros -> Hv. simpl. case_range; (reflexivity || lia).
  - intros Hm Hh Hd.
    destruct (String.eqb_spec unit "minutes") as [-> |];
      [case_range; (eauto || (exfalso; apply Hm; split; [reflexivity | lia])) |].
    destruct (String.eqb_spec unit "hours") as [-> |];
      [case_range; (eauto || (exfalso; apply Hh; split; [reflexivity | lia])) |].
    destruct (String.eqb_spec unit "days") as [-> |];
      [case_range; (eauto || (exfalso; apply Hd; split; [reflexivity | lia])) |].
    eauto.
Qed.

Lemma intervalToCron_spec_witness :
  intervalToCron 15 "minutes" = Normal "*/15 * * * *"
  /\ intervalToCron 23 "hours" = Normal "0 */23 * * *"
  /\ intervalToCron 30 "days" = Normal "0 0 */30 * *"
  /\ (exists msg, intervalToCron 60 "minutes" = Throw (Error msg))
  /\ (exists msg, intervalToCron 0 "minutes" = Throw (Error msg))
  /\ (exists msg, intervalToCron 24 "hours" = Throw (Error msg))
  /\ (exists msg, intervalToCron 31 "days" = Throw (Error msg))
  /\ (exists msg, intervalToCron 2 "weeks" = Throw (Error msg)).
Proof.
  split; [apply (intervalToCron_spec 15 "minutes"); [reflexivity | lia] |].
  split; [apply (intervalToCron_spec 23 "hours"); [reflexivity | lia] |].
  split; [apply (intervalToCron_spec 30 "days"); [reflexivity | lia] |].
  repeat split;
    match goal with
    | |- exists msg, intervalToCron ?v ?u = _ =>
        apply (intervalToCron_spec v u);
        intros [E R]; (discriminate E || lia)
    end.
Defined.

(** *** The time-of-day expression *)

Lemma in_class_single (c0 c : ascii) :
  Regex.in_class c0 c0 c = true -> c = c0.
Proof.
  unfold Regex.in_class. rewrite andb_true_iff, !N.leb_le. intros [H1 H2].
  rewrite <- (ascii_N_embedding c), <- (ascii_N_embedding c0).
  f_equal. lia.
Qed.

Lemma digit_cases (c : ascii) :
  Regex.in_class "0" "9" c = true ->
  In c ["0"; "1"; "2"; "3"; "4"; "5"; "6"; "7"; "8"; "9"]%char.
Proof.
  destruct c as [[] [] [] [] [] [] [] []]; intros H; vm_compute in H;
    try discriminate H; simpl; auto 12.
Qed.

Lemma in_class_digit (hi c : ascii) :
  (N_of_ascii hi <= 57)%N ->
  Regex.in_class "0" hi c = true -> Regex.in_class "0" "9" c = true.
Proof.
  unfold Regex.in_class. rewrite !andb_true_iff, !N.leb_le.
  change (N_of_ascii "9") with 57%N. lia.
Qed.

(** The code of a digit is 48 more than its value. *)
Lemma digit_code (c : ascii) :
  Regex.in_class "0" "9" c = true ->
  Z.of_N (N_of_ascii c) = 48 + Js.digit_value c.
Proof.
  intros H. apply digit_cases in H. simpl in H.
  repeat (destruct H as [<- | H]; [reflexivity |]). contradiction.
Qed.

Lemma digit_value_bounds (hi c : ascii) :
  (N_of_ascii hi <= 57)%N ->
  Regex.in_class "0" hi c = true ->
  0 <= Js.digit_value c <= Z.of_N (N_of_ascii hi) - 48.
Proof.
  intros Hhi H. pose proof (digit_code c (in_class_digit hi c Hhi H)) as E.
  unfold Regex.in_class in H. rewrite andb_true_iff, !N.leb_le in H.
  change (N_of_ascii "0") with 48%N in H. lia.
Qed.

Lemma to_string_digit (c : ascii) :
  Regex.in_class "0" "9" c = true ->
  Js.to_string (Js.digit_value c) = String c EmptyString.
Proof.
  intros H. apply digit_cases in H. simpl in H.
  repeat (destruct H as [<- | H]; [reflexivity |]). contradiction.
Qed.

Lemma two_digits_chars (c1 c2 : ascii) :
  Regex.in_class "0" "9" c1 = true -> Regex.in_class "0" "9" c2 = true ->
  Spec.two_digits (10 * Js.digit_value c1 + Js.digit_value c2)
  = String c1 (String c2 EmptyString).
Proof.
  intros H1 H2. apply digit_cases in H1, H2. simpl in H1, H2.
  repeat (destruct H1 as [<- | H1]; [| try contradiction]);
    repeat (destruct H2 as [<- | H2]; [reflexivity | try contradiction]).
Qed.

(** The strings that [timeRegex] accepts, character by character. *)
Lemma timeRegex_shape (time : string) :
  Regex.test timeRegex time = true ->
  exists hh m1 m2,
    time = hh +:+ String ":" (String m1 (String m2 EmptyString))
    /\ Regex.in_class "0" "5" m1 = true
    /\ Regex.in_class "0" "9" m2 = true
    /\ ((exists h2, hh = String h2 EmptyString
                    /\ Regex.in_class "0" "9" h2 = true)
        \/ (exists h1 h2, hh = String h1 (String h2 EmptyString)
                          /\ Regex.in_class "0" "1" h1 = true
                          /\ Regex.in_class "0" "9" h2 = true)
        \/ (exists h2, hh = String "2" (String h2 EmptyString)
                       /\ Regex.in_class "0" "3" h2 = true)).
Proof.
  intros H. apply RegexFacts.test_denote in H.
  unfold timeRegex, Regex.Chr in H. cbn [Regex.denote] in H.
  destruct H as (hh & rest & -> & Hh & H).
  destruct H as (colon & rest' & -> & (c & -> & Hc) & H).
  destruct H as (a & b & -> & (m1 & -> & Hm1) & (m2 & -> & Hm2)).
  apply in_class_single in Hc as ->.
  exists hh, m1, m2. split; [reflexivity |]. split; [exact Hm1 |].
  split; [exact Hm2 |].
  destruct Hh as [(a & b & -> & [-> | (h1 & -> & Hh1)] & (h2 & -> & Hh2))
                 | (a & b & -> & (h1 & -> & Hh1) & (h2 & -> & Hh2))].
  - left. exists h2. auto.
  - right; left. exists h1, h2. auto.
  - right; right. apply in_class_single in Hh1 as ->. exists h2. auto.
Qed.


Lemma same_result_eq (a b : completion string) :
  Spec.same_result a b = true -> a = b.
Proof.
  destruct a as [x | [x | x | x]], b as [y | [y | y | y]]; simpl;
    try discriminate; intros H; apply String.eqb_eq in H; congruence.
Qed.

Lemma daily_check_all :
  forallb (fun h => forallb (Spec.daily_check h) (seqZ 0 60)) (seqZ 0 24) = true.
Proof. vm_compute. reflexivity. Qed.

Lemma daily_check_range (h m : Z) :
  0 <= h <= 23 -> 0 <= m <= 59 -> Spec.daily_check h m = true.
Proof.
  intros Hh Hm. pose proof daily_check_all as H.
  rewrite forallb_forall in H.
  assert (Hin : In h (seqZ 0 24)) by (apply list_elem_of_In, elem_of_seqZ; lia).
  specialize (H h Hin). rewrite forallb_forall in H.
  apply H, list_elem_of_In, elem_of_seqZ. lia.
Qed.

(** Every string that the expression accepts writes a time of day. *)
Lemma timeRegex_time_of_day (time : string) :
  Regex.test timeRegex time = true -> exists h m, Spec.time_of_day time h m.
Proof.
  intros H. apply timeRegex_shape in H
    as (hh & m1 & m2 & -> & Hm1 & Hm2 & Hh).
  pose proof (digit_value_bounds "5" m1 ltac:(cbv; congruence) Hm1) as B1.
  pose proof (digit_value_bounds "9" m2 ltac:(cbv; congruence) Hm2) as B2.
  change (Z.of_N (N_of_ascii "5") - 48) with 5 in B1.
  change (Z.of_N (N_of_ascii "9") - 48) with 9 in B2.
  pose proof (two_digits_chars m1 m2
                (in_class_digit "5" m1 ltac:(cbv; congruence) Hm1) Hm2) as Em.
  remember (10 * Js.digit_value m1 + Js.digit_value m2) as m eqn:Dm.
  destruct Hh as [(h2 & -> & Hh2)
                 | [(h1 & h2 & -> & Hh1 & Hh2) | (h2 & -> & Hh2)]].
  - pose proof (digit_value_bounds "9" h2 ltac:(cbv; congruence) Hh2) as B.
    change (Z.of_N (N_of_ascii "9") - 48) with 9 in B.
    exists (Js.digit_value h2), m.
    split; [lia |]. split; [lia |]. right. split; [lia |].
    rewrite (to_string_digit h2 Hh2), Em. reflexivity.
  - pose proof (digit_value_bounds "1" h1 ltac:(cbv; congruence) Hh1) as Bh1.
    pose proof (digit_value_bounds "9" h2 ltac:(cbv; congruence) Hh2) as Bh2.
    change (Z.of_N (N_of_ascii "1") - 48) with 1 in Bh1.
    change (Z.of_N (N_of_ascii "9") - 48) with 9 in Bh2.
    exists (10 * Js.digit_value h1 + Js.digit_value h2), m.
    split; [lia |]. split; [lia |]. left.
    rewrite (two_digits_chars h1 h2
               (in_class_digit "1" h1 ltac:(cbv; congruence) Hh1) Hh2), Em.
    reflexivity.
  - pose proof (digit_value_bounds "3" h2 ltac:(cbv; congruence) Hh2) as Bh2.
    change (Z.of_N (N_of_ascii "3") - 48) with 3 in Bh2.
    exists (10 * Js.digit_value "2" + Js.digit_value h2), m.
    split; [change (Js.digit_value "2") with 2; lia |].
    split; [lia |]. left.
    rewrite (two_digits_chars "2" h2 eq_refl
               (in_class_digit "3" h2 ltac:(cbv; congruence) Hh2)), Em.
    reflexivity.
Qed.

(** C4, as the code has it. [dailyTimeToCron] accepts exactly the strings
    that write an hour from 0 to 23, with two digits or (below ten) with
    one, then [:], then a minute from 00 to 59 with two digits; for these it
    returns [M H * * *] with the numbers of the minute and the hour. It
    throws the format error on every other string. *)
Theorem dailyTimeToCron_spec (time : string) :
  (forall h m, Spec.time_of_day time h m ->
               dailyTimeToCron time = Normal (Spec.daily_cron h m))
  /\ ((forall h m, ~ Spec.time_of_day time h m) ->
      dailyTimeToCron time
      = Throw (Error "Invalid time format. Must be in 24-hour format (HH:MM).")).
Proof.
  split.
  - intros h m (Hh & Hm & Ht).
    pose proof (daily_check_range h m Hh Hm) as C.
    unfold Spec.daily_check in C. apply andb_true_iff in C as [C1 C2].
    destruct Ht as [-> | [H9 ->]].
    + apply same_result_eq, C1.
    + apply orb_true_iff in C2 as [C2 | C2].
      * apply Z.ltb_lt in C2. lia.
      * apply same_result_eq, C2.
  - intros Hno. unfold dailyTimeToCron.
    destruct (Regex.test timeRegex time) eqn:T; [| reflexivity].
    exfalso. apply timeRegex_time_of_day in T as (h & m & T).
    exact (Hno h m T).
Qed.


(** Case analysis on an hour [h] with [0 <= h <= 23]. *)
Ltac each_hour h Hh :=
  let Hin := fresh "Hin" in
  assert (Hin : h ∈ seqZ 0 24) by (apply elem_of_seqZ; lia);
  clear Hh; vm_compute in Hin;
  repeat (apply elem_of_cons in Hin as [-> | Hin]);
  [.. | apply elem_of_nil in Hin; contradiction].

(** Case analysis on a minute [m] with [0 <= m <= 59]. *)
Ltac each_minute m Hm :=
  let Hin := fresh "Hin" in
  assert (Hin : m ∈ seqZ 0 60) by (apply elem_of_seqZ; lia);
  clear Hm; vm_compute in Hin;
  repeat (apply elem_of_cons in Hin as [-> | Hin]);
  [.. | apply elem_of_nil in Hin; contradiction].

Lemma not_time_of_day_24_00 (h m : Z) : ~ Spec.time_of_day "24:00" h m.
Proof.
  intros (Hh & Hm & Ht). each_hour h Hh;
    destruct Ht as [E | [_ E]]; lazy in E; discriminate E.
Qed.

Lemma not_time_of_day_9_5 (h m : Z) : ~ Spec.time_of_day "9:5" h m.
Proof.
  intros (Hh & Hm & Ht). each_hour h Hh;
    destruct Ht as [E | [_ E]]; lazy in E; try discriminate E.
  revert E. each_minute m Hm; intros E; lazy in E; discriminate E.
Qed.

Lemma dailyTimeToCron_spec_witness :
  dailyTimeToCron "09:05" = Normal "5 9 * * *"
  /\ dailyTimeToCron "9:05" = Normal "5 9 * * *"
  /\ dailyTimeToCron "23:59" = Normal "59 23 * * *"
  /\ dailyTimeToCron "24:00"
     = Throw (Error "Invalid time format. Must be in 24-hour format (HH:MM).")
  /\ dailyTimeToCron "9:5"
     = Throw (Error "Invalid time format. Must be in 24-hour format (HH:MM).").
Proof.
  split; [| split; [| split; [| split]]].
  - apply (proj1 (dailyTimeToCron_spec "09:05") 9 5).
    split; [lia |]. split; [lia |]. left. reflexivity.
  - apply (proj1 (dailyTimeToCron_spec "9:05") 9 5).
    split; [lia |]. split; [lia |]. right. split; [lia | reflexivity].
  - apply (proj1 (dailyTimeToCron_spec "23:59") 23 59).
    split; [lia |]. split; [lia |]. left. reflexivity.
  - apply (proj2 (dailyTimeToCron_spec "24:00")).
    exact not_time_of_day_24_00.
  - apply (proj2 (dailyTimeToCron_spec "9:5")).
    exact not_time_of_day_9_5.
Defined.

(** C4, as the specification states it, fails: ["9:05"] is not zero-padded, and
    [dailyTimeToCron] accepts it. *)
Lemma dailyTimeToCron_accepts_unpadded_hour :
  ~ Spec.HH_MM "9:05"
  /\ dailyTimeToCron "9:05" = Normal "5 9 * * *"
  /\ ~ (forall time,
          (Spec.HH_MM time -> exists c, dailyTimeToCron time = Normal c)
          /\ (~ Spec.HH_MM time -> exists e, dailyTimeToCron time = Throw e)).
Proof.
  assert (N : ~ Spec.HH_MM "9:05").
  { intros (h & m & Hh & Hm & E). each_hour h Hh; lazy in E; discriminate E. }
  split; [exact N |]. split; [reflexivity |].
  intros H. destruct (proj2 (H "9:05") N) as [e E]. discriminate E.
Qed.

End ConversionFacts.

(** ** The scheduler and its triggers *)

Module SchedulerFacts.
Import Scheduler.

Section WithCron.

Variable W : Type.
Variable Options : Type.
Variable validate : string -> bool.
Variable autostart : Options -> bool.
Variable refused : Options -> option exn.

Implicit Types (s : Scheduler.t W Options) (c : CronTask W Options).
Implicit Types (cs : list (CronTask W Options)) (task : Task W).

(** *** [stopAllTasks] *)

Lemma stop_stop c : stop (stop c) = stop c.
Proof. reflexivity. Qed.

Lemma running_stop c : running (stop c) = false.
Proof. reflexivity. Qed.

(** What the [forEach] of [stopAllTasks] leaves in node-cron. *)
Lemma lookup_stop_each (hs : list nat) :
  forall cs (h : nat),
    foldl (fun cs h => alter stop h cs) cs hs !! h
    = if decide (h ∈ hs) then stop <$> cs !! h else cs !! h.
Proof.
  induction hs as [| h0 hs IH]; intros cs h; simpl.
  - reflexivity.
  - rewrite IH. destruct (decide (h = h0)) as [-> | Hne].
    + rewrite list_lookup_alter_eq.
      rewrite (decide_True (P := h0 ∈ h0 :: hs)) by apply list_elem_of_here.
      destruct (decide (h0 ∈ hs)); [| reflexivity].
      destruct (cs !! h0); reflexivity.
    + rewrite list_lookup_alter_ne by congruence.
      destruct (decide (h ∈ hs)) as [Hin | Hin].
      * rewrite decide_True by (apply list_elem_of_further, Hin). reflexivity.
      * rewrite decide_False; [reflexivity |].
        intros [? | ?]%elem_of_cons; contradiction.
Qed.

Lemma length_stop_each (hs : list nat) :
  forall cs, length (foldl (fun cs h => alter stop h cs) cs hs) = length cs.
Proof.
  induction hs as [| h0 hs IH]; intros cs; simpl; [reflexivity |].
  rewrite IH. apply length_alter.
Qed.

(** C8. [stopAllTasks] returns normally, stops every task that the
    scheduler owns (and no other task of node-cron), so that none of them
    fires any more, and leaves [scheduledTasks] empty. It is idempotent: on
    an empty [scheduledTasks] it changes neither node-cron's tasks nor the
    set, and so does a second call in a row. *)
Theorem stopAllTasks_spec s :
  fst (stopAllTasks s) = Normal tt
  /\ scheduledTasks (snd (stopAllTasks s)) = []
  /\ (forall h : nat,
        h ∈ scheduledTasks s ->
        cron (snd (stopAllTasks s)) !! h = stop <$> cron s !! h
        /\ forall w, fire h (snd (stopAllTasks s)) w = None)
  /\ (forall h : nat,
        h ∉ scheduledTasks s ->
        cron (snd (stopAllTasks s)) !! h = cron s !! h)
  /\ (scheduledTasks s = [] ->
      cron (snd (stopAllTasks s)) = cron s)
  /\ cron (snd (stopAllTasks (snd (stopAllTasks s))))
     = cron (snd (stopAllTasks s))
  /\ scheduledTasks (snd (stopAllTasks (snd (stopAllTasks s)))) = [].
Proof.
  repeat split.
  - simpl. rewrite lookup_stop_each, decide_True by assumption. reflexivity.
  - intros w. unfold fire. simpl.
    rewrite lookup_stop_each, decide_True by assumption.
    destruct (cron s !! h); reflexivity.
  - intros h Hh. simpl. rewrite lookup_stop_each, decide_False by assumption.
    reflexivity.
  - intros E. simpl. rewrite E. reflexivity.
Qed.


(** *** Firing a task whose callback throws *)

(** When a running task of node-cron fires and the task callback given to
    [scheduleTask] throws a value of which [message] can be read (an
    [Error] object; any value but [null] and [undefined]), the function
    that node-cron called ends in a resolved promise: the message is
    logged through [logger.error] and the error goes no further. The tasks
    of node-cron and [scheduledTasks] are as before, so the task is still
    running and still owned, and it fires again at any later instant. *)
Lemma failing_task_is_logged_and_discarded s (h : nat) c (w w' : W)
    (err : thrown) (text : string) :
  cron s !! h = Some c ->
  running c = true ->
  func c w = (Threw err, w') ->
  thrown_message err = Normal text ->
  exists s',
    fire h s w = Some (Resolved tt, s', w')
    /\ logger s'
       = logger s
         ++ [(Logger.info, "Running scheduled task: " +:+ expression c);
             (Logger.error, "Error in scheduled task: " +:+ text)]
    /\ cron s' = cron s
    /\ scheduledTasks s' = scheduledTasks s
    /\ forall w2, is_Some (fire h s' w2).
Proof.
  intros Hc Hr Hf Ht. unfold fire, scheduled_callback. rewrite Hc, Hr, Hf, Ht.
  eexists. split; [reflexivity |]. simpl.
  split; [rewrite <- app_assoc; reflexivity |].
  split; [reflexivity |]. split; [reflexivity |].
  intros w2. rewrite Hc, Hr. eauto.
Qed.

(** When the callback throws [null] or [undefined], the [catch] block
    throws in its turn: the promise of the function that node-cron called
    is rejected with the [TypeError] of reading [message], and the only
    line logged is the one that announces the run. *)
Lemma nullish_thrown_by_task_rejects s (h : nat) c (w w' : W) (n : nullish) :
  cron s !! h = Some c ->
  running c = true ->
  func c w = (Threw (ThrownNullish n), w') ->
  exists s',
    fire h s w = Some (Rejected (cannot_read n "message"), s', w')
    /\ logger s'
       = logger s
         ++ [(Logger.info, "Running scheduled task: " +:+ expression c)]
    /\ cron s' = cron s
    /\ scheduledTasks s' = scheduledTasks s.
Proof.
  intros Hc Hr Hf. unfold fire, scheduled_callback. rewrite Hc, Hr, Hf.
  eexists. split; [reflexivity |]. simpl. auto.
Qed.

(** A firing changes neither the tasks of node-cron nor [scheduledTasks],
    whatever the task does. *)
Lemma fire_keeps_tasks s (h : nat) (w : W) p s' w' :
  fire h s w = Some (p, s', w') ->
  cron s' = cron s /\ scheduledTasks s' = scheduledTasks s.
Proof.
  unfold fire, scheduled_callback.
  destruct (cron s !! h) as [c |]; [| discriminate].
  destruct (running c); [| discriminate].
  destruct (func c w) as [[[] | err] w1].
  - intros [= <- <- <-]; auto.
  - destruct (thrown_message err); intros [= <- <- <-]; auto.
Qed.

(** *** [scheduleTask] *)

Lemma scheduleTask_accepted (cronExpression : string) task (options : Options) s :
  validate cronExpression = true ->
  refused options = None ->
  scheduleTask validate autostart refused cronExpression task options s
  = (Normal (length (cron s)),
     {| logger := logger s
                  ++ [(Logger.info,
                       "Scheduling task with cron expression: " +:+ cronExpression)];
        cron := cron s ++ [{| expression := cronExpression; func := task;
                              opts := options; running := autostart options |}];
        scheduledTasks := scheduledTasks s ++ [length (cron s)] |}).
Proof.
  intros Hv Ho. unfold scheduleTask, try_catch, bind, cron_schedule.
  rewrite Hv. simpl. rewrite Ho. reflexivity.
Qed.

Lemma scheduleTask_invalid (cronExpression : string) task (options : Options) s :
  validate cronExpression = false ->
  scheduleTask validate autostart refused cronExpression task options s
  = (Throw (Error ("Invalid cron expression: " +:+ cronExpression)),
     {| logger := logger s
                  ++ [(Logger.error,
                       "Failed to schedule task: Invalid cron expression: "
                       +:+ cronExpression)];
        cron := cron s;
        scheduledTasks := scheduledTasks s |}).
Proof.
  intros Hv. unfold scheduleTask, try_catch, bind. rewrite Hv. reflexivity.
Qed.

(** When [cron.schedule] throws, the [catch] block logs the error and
    throws it again: nothing is registered. *)
Lemma scheduleTask_options_refused (cronExpression : string) task
    (options : Options) (err : exn) s :
  validate cronExpression = true ->
  refused options = Some err ->
  scheduleTask validate autostart refused cronExpression task options s
  = (Throw err,
     {| logger := logger s
                  ++ [(Logger.info,
                       "Scheduling task with cron expression: " +:+ cronExpression);
                      (Logger.error,
                       "Failed to schedule task: " +:+ err_message err)];
        cron := cron s;
        scheduledTasks := scheduledTasks s |}).
Proof.
  intros Hv Ho. unfold scheduleTask, try_catch, bind, cron_schedule.
  rewrite Hv. simpl. rewrite Ho. simpl. rewrite <- app_assoc. reflexivity.
Qed.


(** *** [scheduleMultipleDailyTimes] *)

(** The loop over a run of entries that all convert and validate, with
    options that node-cron accepts: each gets its task in node-cron and
    its place in [scheduledTasks], in order, before the loop looks at what
    follows. *)
Lemma scheduleMultipleDailyTimes_loop_accepted task (options : Options)
    (rest : list string) (pre : list string) (exprs : list string) :
  refused options = None ->
  Forall2 (fun time e => dailyTimeToCron time = Normal e /\ validate e = true)
          pre exprs ->
  forall (scheduled : list nat) s,
  exists s1,
    scheduleMultipleDailyTimes_loop validate autostart refused (pre ++ rest)
      task options scheduled s
    = scheduleMultipleDailyTimes_loop validate autostart refused rest task
        options (scheduled ++ seq (length (cron s)) (length pre)) s1
    /\ cron s1
       = cron s ++ ((fun e => {| expression := e; func := task; opts := options;
                                 running := autostart options |}) <$> exprs)
    /\ scheduledTasks s1
       = scheduledTasks s ++ seq (length (cron s)) (length pre).
Proof.
  intros Ho.
  induction 1 as [| time e pre exprs [Hc Hv] _ IH]; intros scheduled s.
  - exists s. simpl. rewrite !app_nil_r. auto.
  - cbn [app scheduleMultipleDailyTimes_loop].
    unfold bind at 1. unfold lift. rewrite Hc.
    unfold bind at 1. unfold log at 1.
    unfold bind at 1. rewrite (scheduleTask_accepted _ _ _ _ Hv Ho).
    cbn [logger cron scheduledTasks].
    match goal with
    | |- context [scheduleMultipleDailyTimes_loop _ _ _ _ _ _ ?acc ?s2] =>
        destruct (IH acc s2) as (s1 & E & Ecron & Esched)
    end.
    exists s1. rewrite E. cbn [logger cron scheduledTasks] in *.
    rewrite length_app in *. cbn [length] in *.
    rewrite Nat.add_1_r in *.
    split; [| split].
    + rewrite <- app_assoc. reflexivity.
    + rewrite Ecron, <- app_assoc. reflexivity.
    + rewrite Esched, <- app_assoc. reflexivity.
Qed.

(** C1, as the code has it. [scheduleMultipleDailyTimes] checks and
    registers the entries one at a time, in list order. When the entries
    [pre] convert and validate and the entry after them fails the [HH:MM]
    check, the call throws the format error, no task is registered for that
    entry or a later one, and the tasks of [pre] have been registered and
    stay in [scheduledTasks]: the set is left as it was only when [pre] is
    empty. (The options are ones that node-cron accepts, as are the
    options left out of the specification's operation.) *)
Theorem scheduleMultipleDailyTimes_registers_earlier_entries
    (pre exprs : list string) (bad : string) (post : list string)
    task (options : Options) s :
  refused options = None ->
  Forall2 (fun time e => dailyTimeToCron time = Normal e /\ validate e = true)
          pre exprs ->
  Regex.test timeRegex bad = false ->
  exists s',
    scheduleMultipleDailyTimes validate autostart refused (pre ++ bad :: post)
      task options s
    = (Throw (Error "Invalid time format. Must be in 24-hour format (HH:MM)."),
       s')
    /\ scheduledTasks s'
       = scheduledTasks s ++ seq (length (cron s)) (length pre)
    /\ cron s'
       = cron s ++ ((fun e => {| expression := e; func := task; opts := options;
                                 running := autostart options |}) <$> exprs)
    /\ (scheduledTasks s' = scheduledTasks s <-> pre = []).
Proof.
  intros Ho Hpre Hbad.
  destruct (scheduleMultipleDailyTimes_loop_accepted task options
              (bad :: post) pre exprs Ho Hpre [] s) as (s1 & E & Ecron & Esched).
  exists s1. split; [| split; [exact Esched | split; [exact Ecron |]]].
  - unfold scheduleMultipleDailyTimes.
    replace (Nat.eqb (length (pre ++ bad :: post)) 0) with false
      by (symmetry; apply Nat.eqb_neq; rewrite length_app; simpl; lia).
    rewrite E. cbn [scheduleMultipleDailyTimes_loop].
    unfold bind, lift, dailyTimeToCron. rewrite Hbad. reflexivity.
  - rewrite Esched. split.
    + intros H. rewrite <- (app_nil_r (scheduledTasks s)) in H at 2.
      apply app_inv_head in H. apply (f_equal length) in H.
      rewrite length_seq in H. destruct pre; [reflexivity | discriminate H].
    + intros ->. apply app_nil_r.
Qed.

(** When every entry converts and validates and node-cron accepts the
    options, one task per entry is registered, in list order, and
    returned. *)
Lemma scheduleMultipleDailyTimes_all_accepted
    (times exprs : list string) task (options : Options) s :
  times <> [] ->
  refused options = None ->
  Forall2 (fun time e => dailyTimeToCron time = Normal e /\ validate e = true)
          times exprs ->
  exists s',
    scheduleMultipleDailyTimes validate autostart refused times task options s
    = (Normal (seq (length (cron s)) (length times)), s')
    /\ scheduledTasks s'
       = scheduledTasks s ++ seq (length (cron s)) (length times).
Proof.
  intros Hne Ho Htimes.
  destruct (scheduleMultipleDailyTimes_loop_accepted task options
              [] times exprs Ho Htimes [] s) as (s1 & E & _ & Esched).
  exists s1. split; [| exact Esched].
  unfold scheduleMultipleDailyTimes.
  destruct times; [contradiction |]. cbn [length Nat.eqb].
  rewrite app_nil_r in E. rewrite E. reflexivity.
Qed.

End WithCron.


(** *** Runs on a concrete scheduler *)

Lemma stopAllTasks_spec_witness :
  let s := snd (Scripted.scheduleMultipleDailyTimes ["09:00"; "23:30"]
                  Scripted.idle tt (Scripted.fresh unit)) in
  scheduledTasks s = [0%nat; 1%nat]
  /\ scheduledTasks (snd (stopAllTasks s)) = []
  /\ (forall w, fire 0 s w <> None)
  /\ (forall w, fire 0 (snd (stopAllTasks s)) w = None)
  /\ (forall w, fire 1 (snd (stopAllTasks s)) w = None)
  /\ scheduledTasks (snd (stopAllTasks (snd (stopAllTasks s)))) = [].
Proof.
  intros s.
  pose proof (stopAllTasks_spec unit unit s) as (_ & E & Hin & _ & _ & _ & E2).
  split; [reflexivity |]. split; [exact E |].
  split; [intros []; discriminate |].
  split; [apply (Hin 0%nat); apply list_elem_of_here |].
  split; [apply (Hin 1%nat); apply list_elem_of_further, list_elem_of_here |].
  exact E2.
Defined.

(** The task of the application, given [undefined] for targets, rejects
    with a [TypeError]: an [Error] object, which the firing logs and
    discards. *)
Lemma failing_task_is_logged_and_discarded_witness :
  let task := Scripted.sendTask (Messenger.TNullish undefined) "hi" None in
  let s := snd (Scripted.scheduleTask "*/5 * * * *" task tt
                  (Scripted.fresh (Messenger.t Scripted.world))) in
  let w := Scripted.start [] in
  exists s',
    fire 0 s w = Some (Resolved tt, s', w)
    /\ logger s'
       = logger s
         ++ [(Logger.info, "Running scheduled task: */5 * * * *");
             (Logger.error,
              "Error in scheduled task: Cannot read properties of undefined (reading 'length')")]
    /\ cron s' = cron s
    /\ scheduledTasks s' = scheduledTasks s
    /\ forall w2, is_Some (fire 0 s' w2).
Proof.
  intros task s w.
  apply (failing_task_is_logged_and_discarded (Messenger.t Scripted.world)
           unit s 0
           {| expression := "*/5 * * * *"; func := task;
              opts := tt; running := true |} w w
           (ThrownError
              (TypeError "Cannot read properties of undefined (reading 'length')")));
    reflexivity.
Defined.

(** C7 fails on a task that throws [null]. The task
    [async () => { throw null }], scheduled on [*/5 * * * *], is fired on
    a scheduler that holds nothing else: the [catch] block of the function
    given to node-cron reads [err.message] of [null], so the promise of
    that function is rejected with a [TypeError] instead of resolving, and
    no error is logged: the log ends with the line that announces the run.
    The same task throwing [new Error("boom")] is logged and discarded, as
    the claim says; in both cases the task has run once and the trigger is
    still held, running, by node-cron. *)
Theorem task_throwing_null_rejects_the_firing :
  let schedule task :=
    snd (Scripted.scheduleTask "*/5 * * * *" task tt (Scripted.fresh nat)) in
  let s := schedule (Scripted.throwing (ThrownNullish null)) in
  let s0 := schedule (Scripted.throwing (ThrownError (Error "boom"))) in
  (exists s',
     fire 0 s 0%nat
     = Some (Rejected
               (TypeError "Cannot read properties of null (reading 'message')"),
             s', 1%nat)
     /\ logger s'
        = logger s ++ [(Logger.info, "Running scheduled task: */5 * * * *")]
     /\ cron s' = cron s
     /\ scheduledTasks s' = [0%nat])
  /\ (exists s',
        fire 0 s0 0%nat = Some (Resolved tt, s', 1%nat)
        /\ logger s'
           = logger s0
             ++ [(Logger.info, "Running scheduled task: */5 * * * *");
                 (Logger.error, "Error in scheduled task: boom")]
        /\ cron s' = cron s0
        /\ scheduledTasks s' = [0%nat]).
Proof.
  intros schedule s s0. split.
  - destruct (nullish_thrown_by_task_rejects nat unit s 0
                {| expression := "*/5 * * * *";
                   func := Scripted.throwing (ThrownNullish null);
                   opts := tt; running := true |} 0%nat 1%nat null
                eq_refl eq_refl eq_refl) as (s' & E & El & Ec & Es).
    exists s'. split; [exact E |]. split; [exact El |]. split; [exact Ec |].
    rewrite Es. reflexivity.
  - destruct (failing_task_is_logged_and_discarded nat unit s0 0
                {| expression := "*/5 * * * *";
                   func := Scripted.throwing (ThrownError (Error "boom"));
                   opts := tt; running := true |} 0%nat 1%nat
                (ThrownError (Error "boom")) "boom"
                eq_refl eq_refl eq_refl eq_refl) as (s' & E & El & Ec & Es & _).
    exists s'. split; [exact E |]. split; [exact El |]. split; [exact Ec |].
    rewrite Es. reflexivity.
Qed.

Lemma scheduleMultipleDailyTimes_registers_earlier_entries_witness :
  exists s',
    Scripted.scheduleMultipleDailyTimes ["09:00"; "25:00"] Scripted.idle tt
      (Scripted.fresh unit)
    = (Throw (Error "Invalid time format. Must be in 24-hour format (HH:MM)."),
       s')
    /\ scheduledTasks s' = [0%nat]
    /\ cron s' = [{| expression := "0 9 * * *"; func := Scripted.idle;
                     opts := tt; running := true |}]
    /\ (scheduledTasks s' = [] <-> ["09:00"] = []).
Proof.
  apply (scheduleMultipleDailyTimes_registers_earlier_entries unit unit
           Scripted.validate5 (fun _ => true) (fun _ => None)
           ["09:00"] ["0 9 * * *"] "25:00" []
           Scripted.idle tt (Scripted.fresh unit)).
  - reflexivity.
  - constructor; [split; reflexivity | constructor].
  - reflexivity.
Defined.

(** C1, as the specification states it, fails: on [["09:00"; "25:00"]] the call throws
    the format error after it has registered the task of ["09:00"], which
    stays in [scheduledTasks]. *)
Lemma scheduleMultipleDailyTimes_not_all_or_nothing :
  let s := Scripted.fresh unit in
  let r := Scripted.scheduleMultipleDailyTimes ["09:00"; "25:00"]
             Scripted.idle tt s in
  fst r = Throw (Error "Invalid time format. Must be in 24-hour format (HH:MM).")
  /\ scheduledTasks (snd r) = [0%nat]
  /\ scheduledTasks (snd r) <> scheduledTasks s
  /\ (exists c, cron (snd r) !! 0%nat = Some c /\ running c = true
                /\ expression c = "0 9 * * *").
Proof.
  intros s r. split; [reflexivity |]. split; [reflexivity |].
  split; [discriminate |]. eexists. split; [reflexivity |]. split; reflexivity.
Qed.

End SchedulerFacts.

(** ** The messenger and its runs *)

Module MessengerFacts.
Import Messenger.

Section WithClient.

Variable W : Type.
Variable Timestamp : Type.
Variable client_sendMessage : W -> Entity -> string -> completion Z * W.
Variable now : W -> Timestamp.
Variable setTimeout : Z -> W -> W.

Implicit Types (s : Messenger.t W) (r : Outcome Timestamp).
Implicit Types (rs results : list (Outcome Timestamp)).

Abbreviation sendMessage := (Messenger.sendMessage client_sendMessage now).
Abbreviation pause_after := (Messenger.pause_after (Timestamp := Timestamp) setTimeout).
Abbreviation loop :=
  (Messenger.sendMessagesToAllTargets_loop client_sendMessage now setTimeout).
Abbreviation sendMessagesToAllTargets :=
  (Messenger.sendMessagesToAllTargets client_sendMessage now setTimeout).

(** *** One send *)

Lemma choose_entity_spec (target : Target) s :
  choose_entity W target s
  = match Spec.entity_of target with
    | Some entity => (Normal entity, s)
    | None => (Throw (Error "Invalid target configuration"), s)
    end.
Proof.
  unfold choose_entity, Spec.entity_of.
  destruct (is_chat (type target) && truthy_number (id target));
    [reflexivity |].
  destruct (truthy_string (username target)); reflexivity.
Qed.

(** A target that designates no entity: nothing is sent. *)
Lemma sendMessage_invalid_target (target : Target) (message : string) s :
  Spec.entity_of target = None ->
  sendMessage target message s
  = (Resolved {| success := false; target := target; messageId := None;
                 error := Some "Invalid target configuration";
                 waitTime := None; timestamp := now (world s) |},
     {| world := world s;
        logger := logger s
                  ++ [(Logger.error,
                       "Failed to send message to " +:+ describe target
                       +:+ ": Invalid target configuration")];
        effects := effects s |}).
Proof.
  intros E. unfold Messenger.sendMessage, async, try_catch, bind.
  rewrite choose_entity_spec, E. reflexivity.
Qed.

Lemma sendMessage_sent (target : Target) (message : string) s
    (entity : Entity) (n : Z) (w' : W) :
  Spec.entity_of target = Some entity ->
  client_sendMessage (world s) entity message = (Normal n, w') ->
  sendMessage target message s
  = (Resolved {| success := true; target := target; messageId := Some n;
                 error := None; waitTime := None; timestamp := now w' |},
     {| world := w';
        logger := logger s
                  ++ [(Logger.info,
                       "Message sent successfully to " +:+ describe target)];
        effects := effects s ++ [Sent entity message] |}).
Proof.
  intros E Hc. unfold Messenger.sendMessage, async, try_catch, bind.
  rewrite choose_entity_spec, E. unfold client_send. rewrite Hc. reflexivity.
Qed.

Lemma sendMessage_rate_limited (target : Target) (message : string) s
    (entity : Entity) (e : exn) (w' : W) :
  Spec.entity_of target = Some entity ->
  client_sendMessage (world s) entity message = (Throw e, w') ->
  Js.includes "FLOOD_WAIT" (err_message e) = true ->
  sendMessage target message s
  = (Resolved {| success := false; target := target; messageId := None;
                 error := Some "RATE_LIMITED";
                 waitTime := Some (_extractFloodWaitTime (err_message e));
                 timestamp := now w' |},
     {| world := w';
        logger := logger s
                  ++ [(Logger.warn,
                       "Rate limited! Need to wait "
                       +:+ Js.to_string (_extractFloodWaitTime (err_message e))
                       +:+ " seconds before sending to " +:+ describe target)];
        effects := effects s ++ [Sent entity message] |}).
Proof.
  intros E Hc Hf. unfold Messenger.sendMessage, async, try_catch, bind.
  rewrite choose_entity_spec, E. unfold client_send. rewrite Hc, Hf.
  reflexivity.
Qed.

Lemma sendMessage_failed (target : Target) (message : string) s
    (entity : Entity) (e : exn) (w' : W) :
  Spec.entity_of target = Some entity ->
  client_sendMessage (world s) entity message = (Throw e, w') ->
  Js.includes "FLOOD_WAIT" (err_message e) = false ->
  sendMessage target message s
  = (Resolved {| success := false; target := target; messageId := None;
                 error := Some (err_message e); waitTime := None;
                 timestamp := now w' |},
     {| world := w';
        logger := logger s
                  ++ [(Logger.error,
                       "Failed to send message to " +:+ describe target
                       +:+ ": " +:+ err_message e)];
        effects := effects s ++ [Sent entity message] |}).
Proof.
  intros E Hc Hf. unfold Messenger.sendMessage, async, try_catch, bind.
  rewrite choose_entity_spec, E. unfold client_send. rewrite Hc, Hf.
  reflexivity.
Qed.

(** Whatever the target and the transport do, [sendMessage] resolves, to
    an outcome for its target, after at most one send. *)
Lemma sendMessage_resolves (target : Target) (message : string) s :
  exists r s',
    sendMessage target message s = (Resolved r, s')
    /\ Messenger.target r = target
    /\ effects s'
       = effects s ++ match Spec.entity_of target with
                      | Some entity => [Sent entity message]
                      | None => []
                      end.
Proof.
  destruct (Spec.entity_of target) as [entity |] eqn:E.
  - destruct (client_sendMessage (world s) entity message) as [[n | e] w'] eqn:Hc.
    + rewrite (sendMessage_sent _ _ _ _ _ _ E Hc). eauto.
    + destruct (Js.includes "FLOOD_WAIT" (err_message e)) eqn:Hf.
      * rewrite (sendMessage_rate_limited _ _ _ _ _ _ E Hc Hf). eauto.
      * rewrite (sendMessage_failed _ _ _ _ _ _ E Hc Hf). eauto.
  - rewrite (sendMessage_invalid_target _ _ _ E).
    eexists _, _. split; [reflexivity |]. split; [reflexivity |].
    simpl. symmetry. apply app_nil_r.
Qed.

(** *** The pause *)

Lemma pause_after_spec r (delay : Z) s :
  exists s',
    pause_after r delay s = (Normal tt, s')
    /\ effects s' = effects s ++ [Slept (Spec.pause_of delay r)]
    /\ world s' = setTimeout (Spec.pause_of delay r) (world s).
Proof.
  unfold Messenger.pause_after, Spec.pause_of.
  destruct (rate_limited r); eexists; (split; [reflexivity |]); auto.
Qed.


(** *** The loop over the targets *)

(** One turn: the send, then the pause. *)
Lemma loop_cons (target : Target) (targets : list Target) (message : string)
    (delay : Z) results s :
  exists r s1 s2,
    sendMessage target message s = (Resolved r, s1)
    /\ pause_after r delay s1 = (Normal tt, s2)
    /\ loop (target :: targets) message delay results s
       = loop targets message delay (results ++ [r]) s2.
Proof.
  destruct (sendMessage_resolves target message s) as (r & s1 & E & _ & _).
  destruct (pause_after_spec r delay s1) as (s2 & P & _ & _).
  exists r, s1, s2. split; [exact E |]. split; [exact P |].
  cbn [sendMessagesToAllTargets_loop]. unfold bind at 1. unfold await.
  rewrite E. unfold bind at 1. rewrite P. reflexivity.
Qed.

(** The loop never throws: it ends with one more outcome per target, in
    the order of the targets, and its sends and pauses are those of the
    outcomes, target by target. *)
Lemma loop_spec (message : string) (delay : Z) (targets : list Target) :
  forall results s,
  exists rs s',
    loop targets message delay results s = (Normal (results ++ rs), s')
    /\ target <$> rs = targets
    /\ effects s' = effects s ++ Spec.trace message delay rs.
Proof.
  induction targets as [| tg targets IH]; intros results s.
  - exists [], s. simpl. rewrite !app_nil_r. auto.
  - destruct (loop_cons tg targets message delay results s)
      as (r & s1 & s2 & E & P & L).
    destruct (sendMessage_resolves tg message s) as (r' & s1' & E' & Ht & Hs).
    rewrite E in E'. injection E' as <- <-.
    destruct (pause_after_spec r delay s1) as (s2' & P' & Hp & _).
    rewrite P in P'. injection P' as <-.
    destruct (IH (results ++ [r]) s2) as (rs & s' & Hl & Hts & Hes).
    exists (r :: rs), s'. rewrite L, Hl.
    split; [rewrite <- app_assoc; reflexivity |].
    split; [rewrite fmap_cons, Ht, Hts; reflexivity |].
    rewrite Hes, Hp, Hs. unfold Spec.trace. cbn [flat_map]. rewrite Ht.
    rewrite <- !app_assoc. reflexivity.
Qed.

(** The loop on a list of targets in two parts. *)
Lemma loop_app (message : string) (delay : Z) (pre post : list Target) :
  forall results s,
    loop (pre ++ post) message delay results s
    = match loop pre message delay results s with
      | (Normal results1, s1) => loop post message delay results1 s1
      | (Throw e, s1) => (Throw e, s1)
      end.
Proof.
  induction pre as [| tg pre IH]; intros results s.
  - reflexivity.
  - destruct (loop_cons tg (pre ++ post) message delay results s)
      as (r & s1 & s2 & E & P & L).
    destruct (loop_cons tg pre message delay results s)
      as (r' & s1' & s2' & E' & P' & L').
    rewrite E in E'. injection E' as <- <-.
    rewrite P in P'. injection P' as <-.
    change ((tg :: pre) ++ post) with (tg :: (pre ++ post)).
    rewrite L, L'. apply IH.
Qed.

(** *** The whole run *)

(** C6. For every list of targets, whatever the transport answers,
    [sendMessagesToAllTargets] resolves: no failure of a send rejects it or
    stops the run. Its outcomes are as many as the targets and in their
    order, one per target; and the targets are handled one at a time in
    that order: the sends and pauses that happen are, target after target,
    the send of the target and then its pause. *)
Theorem sendMessagesToAllTargets_outcomes (targets : list Target)
    (message : string) (delayBetweenMessages : option Z) s :
  exists results s',
    sendMessagesToAllTargets (TArray targets) message delayBetweenMessages s
    = (Resolved results, s')
    /\ length results = length targets
    /\ target <$> results = targets
    /\ effects s'
       = effects s
         ++ Spec.trace message (default 2000 delayBetweenMessages) results.
Proof.
  unfold Messenger.sendMessagesToAllTargets, async.
  unfold bind at 1. unfold log at 1. cbn beta iota. unfold bind at 1.
  match goal with
  | |- context [sendMessagesToAllTargets_loop _ _ _ _ _ ?d _ ?s0] =>
      destruct (loop_spec message d targets [] s0) as (rs & s1 & L & Ht & He)
  end.
  rewrite L. unfold bind, log, ret. simpl.
  exists rs, {| world := world s1;
                logger := logger s1
                  ++ [(Logger.info,
                       "Completed sending messages. Success: "
                       +:+ Js.to_string
                             (Z.of_nat (length (filter (fun r => success r = true) rs)))
                       +:+ "/" +:+ Js.to_string (Z.of_nat (length targets)))];
                effects := effects s1 |}.
  split; [reflexivity |].
  split; [rewrite <- Ht, length_fmap; reflexivity |].
  split; [exact Ht |]. exact He.
Qed.


(** The run is its loop between two log entries. *)
Lemma sendMessagesToAllTargets_loop_result (targets : list Target)
    (message : string) (delayBetweenMessages : option Z) s rs s1 :
  loop targets message (default 2000 delayBetweenMessages) []
    {| world := world s;
       logger := logger s
                 ++ [(Logger.info,
                      "Starting to send messages to "
                      +:+ Js.to_string (Z.of_nat (length targets))
                      +:+ " targets")];
       effects := effects s |}
  = (Normal rs, s1) ->
  exists s', sendMessagesToAllTargets (TArray targets) message
               delayBetweenMessages s = (Resolved rs, s')
             /\ effects s' = effects s1 /\ world s' = world s1.
Proof.
  intros L. unfold Messenger.sendMessagesToAllTargets, async.
  unfold bind at 1. unfold log at 1. cbn beta iota. unfold bind at 1.
  rewrite L. unfold bind, log, ret. simpl. eexists. split; [reflexivity |].
  split; reflexivity.
Qed.

(** The run on an array that holds [null] or [undefined]: the targets
    before that element are handled as in any run, then the promise is
    rejected with the [TypeError] of reading [type]. *)
Lemma sendMessagesToAllTargets_holding (before : list Target) (hole : nullish)
    (after : nat) (message : string) (delayBetweenMessages : option Z) s :
  exists rs s',
    sendMessagesToAllTargets (TArrayHolding before hole after) message
      delayBetweenMessages s
    = (Rejected (cannot_read hole "type"), s')
    /\ target <$> rs = before
    /\ effects s'
       = effects s ++ Spec.trace message (default 2000 delayBetweenMessages) rs.
Proof.
  unfold Messenger.sendMessagesToAllTargets, async.
  unfold bind at 1. unfold log at 1. cbn beta iota. unfold bind at 1.
  match goal with
  | |- context [sendMessagesToAllTargets_loop _ _ _ _ _ ?d _ ?s0] =>
      destruct (loop_spec message d before [] s0) as (rs & s1 & L & Ht & He)
  end.
  rewrite L. exists rs, s1.
  split; [| split; [exact Ht | exact He]].
  unfold sendMessage_nullish, try_catch, throw.
  destruct (Js.includes "FLOOD_WAIT" (err_message (cannot_read hole "type")));
    reflexivity.
Qed.

(** C2, as the code has it. [sendMessagesToAllTargets] has no check of
    its own on [targets] and no error of its own; it is [async], so that
    it fails by rejecting its promise. It handles, in order, the targets
    that its loop reaches: all of them on an array of objects, those
    before the first [null] or [undefined] element on an array that holds
    one, none when [targets] cannot be iterated. Then the promise resolves
    to their outcomes when [targets] is an array of objects, and is
    rejected with a [TypeError] of the runtime in the other cases: before
    any send is attempted when nothing is reached. In particular the empty
    array resolves to the empty sequence of outcomes, with nothing sent
    and no pause made. *)
Theorem sendMessagesToAllTargets_rejects_exactly_when (targets : Targets)
    (message : string) (delayBetweenMessages : option Z) s :
  exists results s',
    target <$> results = Spec.reached targets
    /\ effects s'
       = effects s
         ++ Spec.trace message (default 2000 delayBetweenMessages) results
    /\ (if Spec.sequence_of_targets targets
        then sendMessagesToAllTargets targets message delayBetweenMessages s
             = (Resolved results, s')
        else exists msg,
             sendMessagesToAllTargets targets message delayBetweenMessages s
             = (Rejected (TypeError msg), s'))
    /\ match Spec.reached targets with
       | [] => results = [] /\ effects s' = effects s /\ world s' = world s
       | _ :: _ => True
       end.
Proof.
  destruct targets as [ts | before hole after | | n].
  - match goal with
    | |- context [sendMessagesToAllTargets (TArray ?l) _ ?d _] =>
        pose proof (sendMessagesToAllTargets_loop_result l message d s) as R
    end.
    match type of R with
    | forall rs s1, loop _ _ ?d _ ?st = _ -> _ =>
        destruct (loop_spec message d ts [] st) as (rs & s1 & L & Ht & He)
    end.
    destruct (R _ _ L) as (s' & E & Ee & Ew).
    exists rs, s'. cbn [Spec.reached Spec.sequence_of_targets].
    split; [exact Ht |]. split; [rewrite Ee; exact He |].
    split; [exact E |].
    destruct ts; [| exact I]. simpl in L. injection L as <- <-.
    rewrite Ee, Ew. auto.
  - destruct (sendMessagesToAllTargets_holding before hole after message
                delayBetweenMessages s) as (rs & s' & E & Ht & He).
    exists rs, s'. cbn [Spec.reached Spec.sequence_of_targets].
    split; [exact Ht |]. split; [exact He |].
    split; [eexists; exact E |].
    destruct before; [| exact I]. destruct rs; [| discriminate Ht].
    split; [reflexivity |].
    revert E. unfold Messenger.sendMessagesToAllTargets, async, bind, log,
      sendMessage_nullish, try_catch, throw. simpl.
    destruct (Js.includes _ _); intros [= <-]; auto.
  - eexists [], _. cbn [Spec.reached Spec.sequence_of_targets].
    split; [reflexivity |]. split; [| split; [eexists; reflexivity |]].
    + simpl. rewrite app_nil_r. reflexivity.
    + auto.
  - exists [], s. cbn [Spec.reached Spec.sequence_of_targets].
    split; [reflexivity |]. split; [| split; [eexists; reflexivity |]].
    + simpl. rewrite app_nil_r. reflexivity.
    + auto.
Qed.

(** The task of the application returns normally whenever the targets of
    the configuration are a list: a failed send never reaches the
    scheduler. *)
Lemma sendTask_returns (targets : list Target) (message : string)
    (messageDelay : option Z) s :
  exists s',
    Main.sendTask client_sendMessage now setTimeout (TArray targets) message
      messageDelay s
    = (Returned tt, s').
Proof.
  unfold Main.sendTask.
  match goal with
  | |- context [Messenger.sendMessagesToAllTargets _ _ _ _ _ ?d ?s0] =>
      pose proof (sendMessagesToAllTargets_loop_result targets message d s0) as R
  end.
  match type of R with
  | forall rs s1, loop _ _ ?d _ ?st = _ -> _ =>
      destruct (loop_spec message d targets [] st) as (rs & s1 & L & _)
  end.
  destruct (R _ _ L) as (s' & E & _). rewrite E. eauto.
Qed.

(** *** Rate limits *)


(** C9. When a send fails with a message that holds [FLOOD_WAIT] and the
    wait read from it is 0, the outcome is the rate-limit outcome with
    [waitTime] 0, and the pause before the next target is the delay between
    messages: no wait of one second is made and none is logged, because
    [result.waitTime] is 0 and so is not truthy. *)
Theorem flood_wait_zero_pauses_for_the_delay (target : Target)
    (targets : list Target) (message : string) (delay : Z) results s
    (entity : Entity) (e : exn) (w' : W) :
  Spec.entity_of target = Some entity ->
  client_sendMessage (world s) entity message = (Throw e, w') ->
  Js.includes "FLOOD_WAIT" (err_message e) = true ->
  _extractFloodWaitTime (err_message e) = 0 ->
  exists r s1 s2,
    sendMessage target message s = (Resolved r, s1)
    /\ r = {| success := false; target := target; messageId := None;
              error := Some "RATE_LIMITED"; waitTime := Some 0;
              timestamp := now w' |}
    /\ pause_after r delay s1 = (Normal tt, s2)
    /\ world s2 = setTimeout delay w'
    /\ logger s2 = logger s1
    /\ effects s2 = effects s ++ [Sent entity message; Slept delay]
    /\ loop (target :: targets) message delay results s
       = loop targets message delay (results ++ [r]) s2.
Proof.
  intros E Hc Hf H0.
  pose proof (sendMessage_rate_limited _ _ _ _ _ _ E Hc Hf) as S.
  rewrite H0 in S.
  eexists _, _, _. split; [exact S |]. split; [reflexivity |].
  split; [reflexivity |]. split; [reflexivity |]. split; [reflexivity |].
  split; [simpl; rewrite <- app_assoc; reflexivity |].
  cbn [sendMessagesToAllTargets_loop]. unfold bind at 1. unfold await.
  rewrite S. reflexivity.
Qed.

(** *** Targets that designate nothing *)

(** C10. For a target that is neither a chat with a truthy [id] nor has a
    truthy [username], [sendMessage] resolves: the error that it throws
    inside is caught and comes back as an outcome with [success] false,
    the message [Invalid target configuration] and a timestamp, and nothing
    is sent. A run over a list that holds such a target goes on: every
    target before and after it has its outcome, and the sends and pauses of
    the later targets follow the pause of this one. *)
Theorem invalid_target_is_an_outcome (pre post : list Target) (target : Target)
    (message : string) (delayBetweenMessages : option Z) s :
  is_chat (type target) && truthy_number (id target) = false ->
  truthy_string (username target) = false ->
  (exists s',
     sendMessage target message s
     = (Resolved {| success := false; target := target; messageId := None;
                    error := Some "Invalid target configuration";
                    waitTime := None; timestamp := now (world s) |}, s')
     /\ effects s' = effects s /\ world s' = world s)
  /\ exists rs1 (w1 : W) rs2 s',
       sendMessagesToAllTargets (TArray (pre ++ target :: post)) message
         delayBetweenMessages s
       = (Resolved
            (rs1 ++ {| success := false; target := target; messageId := None;
                       error := Some "Invalid target configuration";
                       waitTime := None; timestamp := now w1 |} :: rs2),
          s')
       /\ Messenger.target <$> rs1 = pre
       /\ Messenger.target <$> rs2 = post
       /\ effects s'
          = effects s
            ++ Spec.trace message (default 2000 delayBetweenMessages) rs1
            ++ [Slept (default 2000 delayBetweenMessages)]
            ++ Spec.trace message (default 2000 delayBetweenMessages) rs2.
Proof.
  intros H1 H2.
  assert (E : Spec.entity_of target = None)
    by (unfold Spec.entity_of; rewrite H1, H2; reflexivity).
  split.
  - rewrite (sendMessage_invalid_target _ _ _ E).
    eexists. split; [reflexivity |]. split; reflexivity.
  - set (d := default 2000 delayBetweenMessages).
    match goal with
    | |- context [sendMessagesToAllTargets (TArray ?ts) _ _ _] =>
        pose proof (sendMessagesToAllTargets_loop_result ts message
                      delayBetweenMessages s) as R
    end.
    fold d in R.
    match type of R with
    | forall rs s1, loop _ _ _ _ ?st = _ -> _ => set (s0 := st) in *
    end.
    destruct (loop_spec message d pre [] s0) as (rs1 & s1 & L1 & T1 & E1).
    destruct (loop_cons target post message d ([] ++ rs1) s1)
      as (r & s1' & s2 & Sd & P & L2).
    rewrite (sendMessage_invalid_target _ _ _ E) in Sd.
    injection Sd as <- <-.
    unfold Messenger.pause_after in P. cbn [rate_limited error andb] in P.
    unfold sleep in P. cbn [world logger effects] in P. injection P as <-.
    match type of L2 with
    | _ = loop _ _ _ ?acc ?st =>
        destruct (loop_spec message d post acc st) as (rs2 & s3 & L3 & T3 & E3)
    end.
    destruct (R ((([] ++ rs1) ++ [{| success := false; target := target;
                                      messageId := None;
                                      error := Some "Invalid target configuration";
                                      waitTime := None;
                                      timestamp := now (world s1) |}]) ++ rs2) s3)
      as (s' & Run & Es & _).
    { rewrite loop_app, L1, L2. exact L3. }
    exists rs1, (world s1), rs2, s'.
    split; [rewrite Run; simpl; rewrite <- app_assoc; reflexivity |].
    split; [exact T1 |]. split; [exact T3 |].
    rewrite Es, E3. cbn [effects]. rewrite E1. subst s0. cbn [effects].
    rewrite <- !app_assoc. reflexivity.
Qed.

End WithClient.


(** *** Runs on the scripted transport *)

(** C2, as the specification states it, fails: on an empty list of targets the call
    does not fail; it resolves to the empty sequence of outcomes. *)
Lemma sendMessagesToAllTargets_resolves_on_empty :
  let run := Scripted.sendMessagesToAllTargets (TArray []) "hi" (Some 100)
               (Scripted.start []) in
  fst run = Resolved []
  /\ (forall e, fst run <> Rejected e)
  /\ effects (snd run) = [].
Proof.
  intros run. split; [reflexivity |]. split; [| reflexivity].
  intros e. discriminate.
Qed.

(** C3 at a wait of zero. The first send fails with [FLOOD_WAIT_0]: the
    outcome is the rate-limit outcome with [waitTime] 0, and the pause
    before the second target is the delay between messages, 100 ms, where
    the wait and one second more would be 1000 ms. *)
Lemma flood_wait_zero_run :
  let run := Scripted.sendMessagesToAllTargets
               (TArray [Scripted.chat; Scripted.group]) "hi" (Some 100)
               (Scripted.start [Throw (Error "FLOOD_WAIT_0")]) in
  (exists r r',
     fst run = Resolved [r; r']
     /\ success r = false
     /\ error r = Some "RATE_LIMITED"
     /\ waitTime r = Some 0
     /\ _extractFloodWaitTime "FLOOD_WAIT_0" = 0)
  /\ effects (snd run)
     = [Sent (EntityId 5) "hi"; Slept 100; Sent (EntityName "g") "hi"; Slept 100]
  /\ effects (snd run)
     <> [Sent (EntityId 5) "hi"; Slept (0 * 1000 + 1000);
         Sent (EntityName "g") "hi"; Slept 100].
Proof.
  intros run. split; [| split].
  - eexists _, _. split; [reflexivity |]. repeat split.
  - reflexivity.
  - discriminate.
Qed.

(** The wait read from some messages. *)
Lemma _extractFloodWaitTime_examples :
  _extractFloodWaitTime "FLOOD_WAIT_5" = 5
  /\ _extractFloodWaitTime "420: FLOOD_WAIT_37 (caused by messages.SendMessage)" = 37
  /\ _extractFloodWaitTime "FLOOD_WAIT_x, then FLOOD_WAIT_012" = 12
  /\ _extractFloodWaitTime "FLOOD_WAIT" = 60
  /\ _extractFloodWaitTime "FLOOD_WAIT_" = 60.
Proof. repeat split. Qed.


Lemma flood_wait_zero_pauses_for_the_delay_witness :
  exists r s1 s2,
    Scripted.sendMessage Scripted.chat "hi"
      (Scripted.start [Throw (Error "FLOOD_WAIT_0")]) = (Resolved r, s1)
    /\ r = {| success := false; target := Scripted.chat; messageId := None;
              error := Some "RATE_LIMITED"; waitTime := Some 0;
              timestamp := 0 |}
    /\ Messenger.pause_after Scripted.setTimeout r 100 s1 = (Normal tt, s2)
    /\ world s2 = Scripted.setTimeout 100
                    {| Scripted.clock := 0; Scripted.replies := [] |}
    /\ logger s2 = logger s1
    /\ effects s2 = [Sent (EntityId 5) "hi"; Slept 100]
    /\ Messenger.sendMessagesToAllTargets_loop Scripted.client_sendMessage
         Scripted.now Scripted.setTimeout [Scripted.chat; Scripted.group]
         "hi" 100 [] (Scripted.start [Throw (Error "FLOOD_WAIT_0")])
       = Messenger.sendMessagesToAllTargets_loop Scripted.client_sendMessage
           Scripted.now Scripted.setTimeout [Scripted.group] "hi" 100 [r] s2.
Proof.
  apply (flood_wait_zero_pauses_for_the_delay Scripted.world Z
           Scripted.client_sendMessage Scripted.now Scripted.setTimeout
           Scripted.chat [Scripted.group] "hi" 100 []
           (Scripted.start [Throw (Error "FLOOD_WAIT_0")]) (EntityId 5)
           (Error "FLOOD_WAIT_0")
           {| Scripted.clock := 0; Scripted.replies := [] |});
    reflexivity.
Defined.

Lemma invalid_target_is_an_outcome_witness :
  (exists s',
     Scripted.sendMessage Scripted.nobody "hi" (Scripted.start [])
     = (Resolved {| success := false; target := Scripted.nobody;
                    messageId := None;
                    error := Some "Invalid target configuration";
                    waitTime := None; timestamp := 0 |}, s')
     /\ effects s' = [] /\ world s' = world (Scripted.start []))
  /\ exists rs1 w1 rs2 s',
       Scripted.sendMessagesToAllTargets
         (TArray [Scripted.chat; Scripted.nobody; Scripted.group]) "hi"
         (Some 100) (Scripted.start [])
       = (Resolved
            (rs1 ++ {| success := false; target := Scripted.nobody;
                       messageId := None;
                       error := Some "Invalid target configuration";
                       waitTime := None; timestamp := Scripted.now w1 |} :: rs2),
          s')
       /\ target <$> rs1 = [Scripted.chat]
       /\ target <$> rs2 = [Scripted.group]
       /\ effects s'
          = [] ++ Spec.trace "hi" 100 rs1 ++ [Slept 100]
            ++ Spec.trace "hi" 100 rs2.
Proof.
  apply (invalid_target_is_an_outcome Scripted.world Z
           Scripted.client_sendMessage Scripted.now Scripted.setTimeout
           [Scripted.chat] [Scripted.group] Scripted.nobody "hi" (Some 100)
           (Scripted.start []));
    reflexivity.
Defined.

End MessengerFacts.

(** ** The life of a scheduler *)

Module LifecycleFacts.
Import Scheduler Lifecycle.

Section WithCron.

Variable W : Type.
Variable Options : Type.
Variable validate : string -> bool.
Variable autostart : Options -> bool.
Variable refused : Options -> option exn.

Implicit Types (s : Scheduler.t W Options) (c : CronTask W Options).
Implicit Types (task : Task W) (options : Options).

Lemma well_formed_constructed : well_formed (constructed (W := W) (Options := Options)).
Proof.
  split; [apply NoDup_nil_2 |]. split.
  - intros h Hin. apply elem_of_nil in Hin. contradiction.
  - intros h c Hc. discriminate Hc.
Qed.

(** Only the tasks of node-cron and [scheduledTasks] matter. *)
Lemma well_formed_ext s s' :
  cron s' = cron s -> scheduledTasks s' = scheduledTasks s ->
  well_formed s -> well_formed s'.
Proof. unfold well_formed. intros -> ->. auto. Qed.

Lemma well_formed_scheduleTask (cronExpression : string) task options s :
  well_formed s ->
  well_formed (snd (scheduleTask validate autostart refused cronExpression task
                      options s)).
Proof.
  intros (Hnd & Hlt & Hrun).
  destruct (validate cronExpression) eqn:Hv;
    [destruct (refused options) as [err |] eqn:Ho |].
  - rewrite (SchedulerFacts.scheduleTask_options_refused _ _ _ _ _ _ _ _ _ _
               Hv Ho).
    cbn [snd]. apply (well_formed_ext s); [reflexivity .. |].
    split; [| split]; assumption.
  - rewrite (SchedulerFacts.scheduleTask_accepted _ _ _ _ _ _ _ _ _ Hv Ho).
    cbn [snd]. split; [| split]; cbn [cron scheduledTasks].
    + apply NoDup_app. split; [exact Hnd |]. split; [| apply NoDup_singleton].
      intros h Hin Hin'. apply list_elem_of_singleton in Hin' as ->.
      specialize (Hlt _ Hin). lia.
    + intros h Hin. rewrite length_app. cbn [length].
      apply elem_of_app in Hin as [Hin | Hin].
      * specialize (Hlt _ Hin). lia.
      * apply list_elem_of_singleton in Hin as ->. lia.
    + intros h c Hc Hr. apply elem_of_app.
      destruct (decide (h < length (cron s))%nat) as [Hh | Hh].
      * left. rewrite lookup_app_l in Hc by exact Hh. eauto.
      * right. apply list_elem_of_singleton.
        apply lookup_lt_Some in Hc. rewrite length_app in Hc.
        cbn [length] in Hc. lia.
  - rewrite (SchedulerFacts.scheduleTask_invalid _ _ _ _ _ _ _ _ _ Hv).
    cbn [snd]. apply (well_formed_ext s); [reflexivity .. |].
    split; [| split]; assumption.
Qed.

Lemma well_formed_loop task options (times : list string) :
  forall (scheduled : list nat) s,
    well_formed s ->
    well_formed (snd (scheduleMultipleDailyTimes_loop validate autostart
                        refused times task options scheduled s)).
Proof.
  induction times as [| time times IH]; intros scheduled s Hwf; [exact Hwf |].
  cbn [scheduleMultipleDailyTimes_loop].
  unfold bind at 1. unfold lift.
  destruct (dailyTimeToCron time) as [e | err]; [| exact Hwf].
  unfold bind at 1. unfold log at 1. unfold bind at 1.
  match goal with
  | |- context [scheduleTask validate autostart refused e task options ?s1] =>
      pose proof (well_formed_scheduleTask e task options s1) as Hs;
      destruct (scheduleTask validate autostart refused e task options s1)
        as [[h | err] s2]
  end.
  - apply IH, Hs. revert Hwf. apply well_formed_ext; reflexivity.
  - apply Hs. revert Hwf. apply well_formed_ext; reflexivity.
Qed.

Lemma well_formed_scheduleMultipleDailyTimes (times : list string) task options s :
  well_formed s ->
  well_formed (snd (scheduleMultipleDailyTimes validate autostart refused times
                      task options s)).
Proof.
  intros Hwf. unfold scheduleMultipleDailyTimes.
  destruct (Nat.eqb (length times) 0); [exact Hwf |].
  apply well_formed_loop, Hwf.
Qed.

Lemma well_formed_stopAllTasks s :
  well_formed s -> well_formed (snd (stopAllTasks s)).
Proof.
  intros (Hnd & Hlt & Hrun). split; [| split]; cbn [snd stopAllTasks scheduledTasks].
  - apply NoDup_nil_2.
  - intros h Hin. apply elem_of_nil in Hin. contradiction.
  - intros h c Hc Hr. exfalso. cbn [cron scheduledTasks log snd] in Hc.
    rewrite SchedulerFacts.lookup_stop_each in Hc.
    destruct (decide (h ∈ scheduledTasks s)) as [Hin | Hin].
    + destruct (cron s !! h) as [c0 |]; simpl in Hc; [| discriminate Hc].
      injection Hc as <-. discriminate Hr.
    + apply Hin. eauto.
Qed.

Lemma well_formed_after_call (call : Lifecycle.call W Options) s (w : W) :
  well_formed s ->
  well_formed (fst (after_call validate autostart refused (s, w) call)).
Proof.
  intros Hwf. destruct call as [e task o | times task o | | h]; cbn [after_call fst snd].
  - apply well_formed_scheduleTask, Hwf.
  - apply well_formed_scheduleMultipleDailyTimes, Hwf.
  - apply well_formed_stopAllTasks, Hwf.
  - destruct (fire h s w) as [[[p s'] w'] |] eqn:F; [| exact Hwf].
    apply SchedulerFacts.fire_keeps_tasks in F as (Ec & Es).
    cbn [fst]. revert Hwf. apply well_formed_ext; assumption.
Qed.

Lemma well_formed_reached (calls : list (Lifecycle.call W Options)) (w : W) :
  well_formed (fst (after_calls validate autostart refused calls
                      (constructed, w))).
Proof.
  unfold after_calls.
  assert (H : forall sw,
             well_formed (fst sw) ->
             well_formed (fst (foldl (after_call validate autostart refused)
                                 sw calls))).
  { induction calls as [| c calls IH]; intros [s w0] Hwf; [exact Hwf |].
    cbn [foldl]. apply IH.
    destruct (after_call validate autostart refused (s, w0) c) as [s1 w1] eqn:E.
    pose proof (well_formed_after_call c s w0 Hwf) as H1.
    rewrite E in H1. exact H1. }
  apply H, well_formed_constructed.
Qed.

(** Whatever is done with a scheduler after its constructor (calls that
    return, calls that throw, firings), the tasks it owns stay distinct
    tasks that node-cron holds, and no task of node-cron runs that the
    scheduler does not own. *)
Theorem well_formed_after_calls (calls : list (Lifecycle.call W Options)) (w : W) :
  let s := fst (after_calls validate autostart refused calls (constructed, w)) in
  NoDup (scheduledTasks s)
  /\ (forall h : nat, h ∈ scheduledTasks s -> is_Some (cron s !! h))
  /\ (forall (h : nat) c, cron s !! h = Some c -> running c = true ->
                          h ∈ scheduledTasks s).
Proof.
  intros s. destruct (well_formed_reached calls w) as (Hnd & Hlt & Hrun).
  split; [exact Hnd |]. split; [| exact Hrun].
  intros h Hin. apply lookup_lt_is_Some, Hlt, Hin.
Qed.

(** After [stopAllTasks], no task that the scheduler ever scheduled fires
    any more, whatever calls came before. *)
Theorem nothing_fires_after_stopAllTasks
    (calls : list (Lifecycle.call W Options)) (w0 : W) (h : nat) (w : W) :
  fire h (snd (stopAllTasks
                 (fst (after_calls validate autostart refused calls
                         (constructed, w0)))))
       w
  = None.
Proof.
  pose proof (well_formed_stopAllTasks _
                (well_formed_reached calls w0)) as (_ & _ & Hrun).
  unfold fire.
  destruct (cron _ !! h) as [c |] eqn:Hc; [| reflexivity].
  destruct (running c) eqn:Hr; [| reflexivity].
  specialize (Hrun h c Hc Hr). apply elem_of_nil in Hrun. contradiction.
Qed.


(** *** The methods one by one *)

(** [scheduleTask] registers a task exactly when node-cron validates the
    expression and accepts the options. Then it returns the new task,
    which is the last of [scheduledTasks] and fires from then on if
    node-cron started it. When the expression is not valid it throws
    [Invalid cron expression]; when [cron.schedule] throws, it throws that
    error again. In both cases it logs the failure and leaves the tasks of
    node-cron and [scheduledTasks] as they were. *)
Theorem scheduleTask_registers_iff_accepted (cronExpression : string) task
    options s :
  let s' :=
    snd (scheduleTask validate autostart refused cronExpression task options s)
  in
  match validate cronExpression, refused options with
       | true, None =>
           fst (scheduleTask validate autostart refused cronExpression task
                  options s)
           = Normal (length (cron s))
           /\ scheduledTasks s' = scheduledTasks s ++ [length (cron s)]
           /\ cron s'
              = cron s ++ [{| expression := cronExpression; func := task;
                              opts := options; running := autostart options |}]
           /\ (forall w, is_Some (fire (length (cron s)) s' w)
                         <-> autostart options = true)
       | true, Some err =>
           fst (scheduleTask validate autostart refused cronExpression task
                  options s)
           = Throw err
           /\ scheduledTasks s' = scheduledTasks s
           /\ cron s' = cron s
           /\ logger s'
              = logger s
                ++ [(Logger.info,
                     "Scheduling task with cron expression: " +:+ cronExpression);
                    (Logger.error,
                     "Failed to schedule task: " +:+ err_message err)]
       | false, _ =>
           fst (scheduleTask validate autostart refused cronExpression task
                  options s)
           = Throw (Error ("Invalid cron expression: " +:+ cronExpression))
           /\ scheduledTasks s' = scheduledTasks s
           /\ cron s' = cron s
           /\ logger s'
              = logger s
                ++ [(Logger.error,
                     "Failed to schedule task: Invalid cron expression: "
                     +:+ cronExpression)]
       end.
Proof.
  cbv zeta.
  destruct (validate cronExpression) eqn:Hv;
    [destruct (refused options) as [err |] eqn:Ho |].
  - rewrite (SchedulerFacts.scheduleTask_options_refused _ _ _ _ _ _ _ _ _ _
               Hv Ho).
    cbn [fst snd cron scheduledTasks logger]. auto.
  - rewrite (SchedulerFacts.scheduleTask_accepted _ _ _ _ _ _ _ _ _ Hv Ho).
    cbn [fst snd cron scheduledTasks logger].
    split; [reflexivity |]. split; [reflexivity |]. split; [reflexivity |].
    intros w. unfold fire. cbn [cron].
    rewrite list_lookup_middle by reflexivity. cbn [running].
    destruct (autostart options); split; intros H; eauto; try discriminate.
    destruct H as [? H]. discriminate H.
  - rewrite (SchedulerFacts.scheduleTask_invalid _ _ _ _ _ _ _ _ _ Hv).
    cbn [fst snd cron scheduledTasks logger]. auto.
Qed.

(** [scheduleMultipleDailyTimes] on an empty list throws and leaves the
    scheduler untouched. On a list whose entries all convert and validate,
    with options that node-cron accepts, it returns one task per entry, in
    the order of the list; these are the new tasks of node-cron, they are
    added to [scheduledTasks] in that order, and the task of each entry
    has the cron expression of that entry. With options that node-cron
    refuses, the call throws what [cron.schedule] throws at the first
    entry, and registers nothing. *)
Theorem scheduleMultipleDailyTimes_one_task_per_entry task options s :
  scheduleMultipleDailyTimes validate autostart refused [] task options s
  = (Throw (Error "Times must be a non-empty array of time strings"), s)
  /\ (forall (times exprs : list string),
        times <> [] ->
        refused options = None ->
        Forall2 (fun time e => dailyTimeToCron time = Normal e
                               /\ validate e = true)
                times exprs ->
        exists s',
          scheduleMultipleDailyTimes validate autostart refused times task
            options s
          = (Normal (seq (length (cron s)) (length times)), s')
          /\ scheduledTasks s'
             = scheduledTasks s ++ seq (length (cron s)) (length times)
          /\ forall (i : nat) (time : string),
               times !! i = Some time ->
               exists e, dailyTimeToCron time = Normal e
                         /\ cron s' !! (length (cron s) + i)%nat
                            = Some {| expression := e; func := task;
                                      opts := options;
                                      running := autostart options |})
  /\ (forall (time e : string) (times : list string) (err : exn),
        dailyTimeToCron time = Normal e ->
        validate e = true ->
        refused options = Some err ->
        exists s',
          scheduleMultipleDailyTimes validate autostart refused (time :: times)
            task options s
          = (Throw err, s')
          /\ scheduledTasks s' = scheduledTasks s
          /\ cron s' = cron s).
Proof.
  split; [reflexivity |]. split.
  - intros times exprs Hne Ho Htimes.
    destruct (SchedulerFacts.scheduleMultipleDailyTimes_loop_accepted _ _
                validate autostart refused task options [] times exprs Ho
                Htimes [] s)
      as (s1 & E & Ecron & Esched).
    exists s1. split; [| split; [exact Esched |]].
    + unfold scheduleMultipleDailyTimes.
      destruct times; [contradiction |]. cbn [length Nat.eqb].
      rewrite app_nil_r in E. rewrite E. reflexivity.
    + intros i time Hi.
      destruct (Forall2_lookup_l _ _ _ _ _ Htimes Hi) as (e & He & Hc & _).
      exists e. split; [exact Hc |].
      rewrite Ecron, lookup_app_r by lia.
      replace (length (cron s) + i - length (cron s))%nat with i by lia.
      rewrite list_lookup_fmap, He. reflexivity.
  - intros time e times err Hc Hv Ho.
    unfold scheduleMultipleDailyTimes.
    cbn [length Nat.eqb scheduleMultipleDailyTimes_loop].
    unfold bind at 1. unfold lift. rewrite Hc.
    unfold bind at 1. unfold log at 1. unfold bind at 1.
    rewrite (SchedulerFacts.scheduleTask_options_refused _ _ _ _ _ _ _ _ _ _
               Hv Ho).
    eexists. split; [reflexivity |]. split; reflexivity.
Qed.

(** A firing runs the task of a running trigger once, on the world as it
    is, and changes the scheduler only by its log: one entry that the task
    runs, and one more when the task threw a value of which [message] can
    be read; the promise of the firing then resolves. When the task threw
    [null] or [undefined] the promise is rejected with the [TypeError] of
    reading [message], and no more is logged. Nothing else fires: not a
    stopped trigger, not an index that node-cron does not hold. *)
Theorem fire_runs_the_task_once s (h : nat) (w : W) :
  match cron s !! h with
  | Some c =>
      if running c then
        exists p entries,
          fire h s w
          = Some (p,
                  {| logger := logger s
                               ++ (Logger.info,
                                   "Running scheduled task: " +:+ expression c)
                                  :: entries;
                     cron := cron s;
                     scheduledTasks := scheduledTasks s |},
                  snd (func c w))
          /\ match fst (func c w) with
             | Returned _ => p = Resolved tt /\ entries = []
             | Threw (ThrownError e) =>
                 p = Resolved tt
                 /\ entries = [(Logger.error,
                                "Error in scheduled task: " +:+ err_message e)]
             | Threw ThrownOther =>
                 p = Resolved tt
                 /\ entries = [(Logger.error,
                                "Error in scheduled task: undefined")]
             | Threw (ThrownNullish n) =>
                 p = Rejected (cannot_read n "message") /\ entries = []
             end
      else fire h s w = None
  | None => fire h s w = None
  end.
Proof.
  unfold fire, scheduled_callback.
  destruct (cron s !! h) as [c |]; [| reflexivity].
  destruct (running c); [| reflexivity].
  destruct (func c w) as [[[] | [e | n |]] w1];
    cbn [fst snd log logger cron scheduledTasks thrown_message].
  - exists (Resolved tt), []. split; [reflexivity | auto].
  - eexists _, _. split; [| split; reflexivity].
    rewrite <- app_assoc. reflexivity.
  - exists (Rejected (cannot_read n "message")), [].
    split; [reflexivity | auto].
  - eexists _, _. split; [| split; reflexivity].
    rewrite <- app_assoc. reflexivity.
Qed.

End WithCron.


(** *** On a concrete scheduler *)

Lemma scheduleMultipleDailyTimes_one_task_per_entry_witness :
  exists s',
    Scripted.scheduleMultipleDailyTimes ["09:00"; "9:30"; "23:59"] Scripted.idle
      tt (Scripted.fresh unit)
    = (Normal [0%nat; 1%nat; 2%nat], s')
    /\ scheduledTasks s' = [0%nat; 1%nat; 2%nat]
    /\ forall (i : nat) (time : string),
         ["09:00"; "9:30"; "23:59"] !! i = Some time ->
         exists e, dailyTimeToCron time = Normal e
                   /\ cron s' !! (0 + i)%nat
                      = Some {| expression := e; func := Scripted.idle;
                                opts := tt; running := true |}.
Proof.
  apply (proj1 (proj2 (scheduleMultipleDailyTimes_one_task_per_entry unit unit
                         Scripted.validate5 (fun _ => true) (fun _ => None)
                         Scripted.idle tt (Scripted.fresh unit)))
           ["09:00"; "9:30"; "23:59"] ["0 9 * * *"; "30 9 * * *"; "59 23 * * *"]).
  - discriminate.
  - reflexivity.
  - repeat (constructor; [split; reflexivity |]). constructor.
Defined.


Lemma well_formed_after_calls_witness :
  let s := fst (after_calls Scripted.validate5 (fun _ : unit => true)
                  (fun _ => None)
                  [ScheduleMultipleDailyTimes ["09:00"; "25:00"] Scripted.idle tt;
                   ScheduleTask "not a cron expression" Scripted.idle tt;
                   ScheduleTask "*/5 * * * *" Scripted.idle tt;
                   Fire 1]
                  (constructed, tt)) in
  scheduledTasks s = [0%nat; 1%nat]
  /\ NoDup (scheduledTasks s)
  /\ (forall h : nat, h ∈ scheduledTasks s -> is_Some (cron s !! h))
  /\ (forall (h : nat) c, cron s !! h = Some c -> running c = true ->
                          h ∈ scheduledTasks s).
Proof.
  intros s. split; [reflexivity |].
  apply (well_formed_after_calls unit unit Scripted.validate5 (fun _ => true)
           (fun _ => None)
           [ScheduleMultipleDailyTimes ["09:00"; "25:00"] Scripted.idle tt;
            ScheduleTask "not a cron expression" Scripted.idle tt;
            ScheduleTask "*/5 * * * *" Scripted.idle tt;
            Fire 1] tt).
Defined.

(** A valid expression, an expression that is not valid, and a time
    zone that node-cron does not know. *)
Lemma scheduleTask_registers_iff_accepted_witness :
  (let r := Scripted.scheduleTask "0 8 * * *" Scripted.idle tt
              (Scripted.fresh unit) in
   fst r = Normal 0%nat /\ scheduledTasks (snd r) = [0%nat])
  /\ (let r := Scripted.scheduleTask "every day at eight" Scripted.idle tt
                 (Scripted.fresh unit) in
      fst r = Throw (Error "Invalid cron expression: every day at eight")
      /\ scheduledTasks (snd r) = [] /\ cron (snd r) = [])
  /\ (let r := scheduleTask Scripted.validate5 (fun _ => true)
                 Scripted.timezone_refused "0 8 * * *" Scripted.idle
                 "Mars/Phobos" constructed in
      fst r = Throw (RangeError "Invalid time zone specified: Mars/Phobos")
      /\ scheduledTasks (snd r) = [] /\ cron (snd r) = []).
Proof.
  split; [| split].
  - pose proof (scheduleTask_registers_iff_accepted unit unit Scripted.validate5
                  (fun _ => true) (fun _ => None) "0 8 * * *" Scripted.idle tt
                  (Scripted.fresh unit)) as H.
    cbv zeta in H.
    change (Scripted.validate5 "0 8 * * *") with true in H.
    cbv beta iota in H. destruct H as (E & Hs & _).
    split; [exact E | exact Hs].
  - pose proof (scheduleTask_registers_iff_accepted unit unit Scripted.validate5
                  (fun _ => true) (fun _ => None) "every day at eight"
                  Scripted.idle tt (Scripted.fresh unit)) as H.
    cbv zeta in H.
    change (Scripted.validate5 "every day at eight") with false in H.
    cbv beta iota in H. destruct H as (E & Hs & Hc & _).
    split; [exact E |]. split; [exact Hs | exact Hc].
  - pose proof (scheduleTask_registers_iff_accepted unit string
                  Scripted.validate5 (fun _ => true) Scripted.timezone_refused
                  "0 8 * * *" Scripted.idle "Mars/Phobos" constructed) as H.
    cbv zeta in H.
    change (Scripted.validate5 "0 8 * * *") with true in H.
    change (Scripted.timezone_refused "Mars/Phobos")
      with (Some (RangeError "Invalid time zone specified: Mars/Phobos")) in H.
    cbv beta iota in H. destruct H as (E & Hs & Hc & _).
    split; [exact E |]. split; [exact Hs | exact Hc].
Defined.

End LifecycleFacts.

(** ** The wait read from an error message *)

Module FloodWaitFacts.
Import Messenger.

Lemma match_FLOOD_WAIT_unfold (s : string) :
  match_FLOOD_WAIT s
  = if Js.starts_with "FLOOD_WAIT_" s
       && negb (String.eqb (Js.take_digits (Js.drop 11 s)) "")
    then Some (Js.take_digits (Js.drop 11 s))
    else match s with
         | EmptyString => None
         | String _ s' => match_FLOOD_WAIT s'
         end.
Proof. destruct s; reflexivity. Qed.

Lemma digits_value_nonneg (s : string) :
  forall acc, 0 <= acc -> 0 <= Js.digits_value acc s.
Proof.
  induction s as [| c s IH]; intros acc Hacc; cbn [Js.digits_value]; [exact Hacc |].
  apply IH.
  assert (0 <= Js.digit_value c)
    by (destruct c as [[] [] [] [] [] [] [] []]; vm_compute; discriminate).
  lia.
Qed.

(** Without [FLOOD_WAIT_] in the message, the expression does not match. *)
Lemma match_FLOOD_WAIT_none (s : string) :
  Js.includes "FLOOD_WAIT_" s = false -> match_FLOOD_WAIT s = None.
Proof.
  induction s as [| c s IH]; intros H.
  - reflexivity.
  - rewrite match_FLOOD_WAIT_unfold. cbn [Js.includes] in H.
    apply orb_false_iff in H as [H1 H2]. rewrite H1. cbn [andb].
    apply IH, H2.
Qed.

Lemma take_digits_app (ds rest : string) :
  Js.all_digits ds = true ->
  Js.take_digits rest = EmptyString ->
  Js.take_digits (ds +:+ rest) = ds.
Proof.
  intros Hd Hr. induction ds as [| c ds IH].
  - exact Hr.
  - rewrite RegexFacts.append_cons. cbn [Js.take_digits Js.all_digits] in *.
    apply andb_true_iff in Hd as [Hc Hd]. rewrite Hc, (IH Hd). reflexivity.
Qed.

(** A text without the letter [F] holds no start of a match. *)
Lemma match_FLOOD_WAIT_skip (before s : string) :
  Js.includes "F" before = false ->
  match_FLOOD_WAIT (before +:+ s) = match_FLOOD_WAIT s.
Proof.
  induction before as [| c before IH]; intros H; [reflexivity |].
  rewrite RegexFacts.append_cons, match_FLOOD_WAIT_unfold.
  cbn [Js.includes] in H. apply orb_false_iff in H as [Hc H].
  cbn [Js.starts_with] in Hc. rewrite andb_true_r in Hc.
  cbn [Js.starts_with]. rewrite Hc. cbn [andb]. apply IH, H.
Qed.

(** [`${n}`] and the reading of digits are inverse on the numbers that are
    not negative. *)
Lemma digits_value_of_uint_acc (u : Decimal.uint) :
  forall acc : positive,
    Js.digits_value (Z.pos acc) (NilEmpty.string_of_uint u)
    = Z.pos (Pos.of_uint_acc u acc).
Proof.
  induction u; intros acc; cbn [NilEmpty.string_of_uint Js.digits_value Pos.of_uint_acc];
    [reflexivity | rewrite <- IHu; f_equal; cbn [Js.digit_value]; lia ..].
Qed.

Lemma digits_value_of_uint (u : Decimal.uint) :
  Js.digits_value 0 (NilZero.string_of_uint u) = Z.of_N (Pos.of_uint u).
Proof.
  assert (H : Js.digits_value 0 (NilEmpty.string_of_uint u) = Z.of_N (Pos.of_uint u)).
  { induction u; cbn [NilEmpty.string_of_uint Js.digits_value Pos.of_uint];
      [reflexivity | exact IHu | apply digits_value_of_uint_acc ..]. }
  destruct u; first [exact H | reflexivity].
Qed.

Lemma all_digits_of_uint (u : Decimal.uint) :
  Js.all_digits (NilZero.string_of_uint u) = true
  /\ NilZero.string_of_uint u <> EmptyString.
Proof.
  assert (H : Js.all_digits (NilEmpty.string_of_uint u) = true)
    by (induction u; cbn [NilEmpty.string_of_uint Js.all_digits]; auto).
  destruct u; (split; [try exact H; reflexivity | discriminate]).
Qed.

Lemma to_string_digits (n : Z) :
  0 <= n ->
  Js.digits_value 0 (Js.to_string n) = n
  /\ Js.all_digits (Js.to_string n) = true
  /\ Js.to_string n <> EmptyString.
Proof.
  intros Hn. unfold Js.to_string. destruct n as [| p | p]; [| | lia].
  - repeat split. discriminate.
  - cbn [Z.to_int NilZero.string_of_int]. split.
    + rewrite digits_value_of_uint, Unsigned.of_to. reflexivity.
    + apply all_digits_of_uint.
Qed.

(** Below 2^53 an integer is its own double, and no double of a number
    that is not negative is negative. *)
Lemma to_double_exact (n : Z) : n < 2 ^ 53 -> Js.to_double n = n.
Proof.
  intros H. unfold Js.to_double.
  apply Z.ltb_lt in H. rewrite H. reflexivity.
Qed.

Lemma to_double_nonneg (n : Z) : 0 <= n -> 0 <= Js.to_double n.
Proof.
  intros H. unfold Js.to_double. destruct (n <? 2 ^ 53); [exact H |].
  cbv zeta. apply Z.mul_nonneg_nonneg; [| apply Z.pow_nonneg; lia].
  assert (0 <= Z.shiftr n (Z.log2 n - 52)) by (apply Z.shiftr_nonneg, H).
  destruct (_ || _); lia.
Qed.

Lemma _extractFloodWaitTime_nonneg (errorMessage : string) :
  0 <= _extractFloodWaitTime errorMessage.
Proof.
  unfold _extractFloodWaitTime.
  destruct (match_FLOOD_WAIT errorMessage) as [ds |]; [| lia].
  destruct (negb (String.eqb ds "")); [| lia].
  apply to_double_nonneg, digits_value_nonneg. lia.
Qed.

Lemma _extractFloodWaitTime_digits (before ds rest : string) :
  Js.includes "F" before = false ->
  ds <> EmptyString -> Js.all_digits ds = true ->
  Js.take_digits rest = EmptyString ->
  _extractFloodWaitTime (before +:+ "FLOOD_WAIT_" +:+ ds +:+ rest)
  = Js.to_double (Js.digits_value 0 ds).
Proof.
  intros Hb Hne Hd Hr. unfold _extractFloodWaitTime.
  rewrite (match_FLOOD_WAIT_skip _ _ Hb), match_FLOOD_WAIT_unfold.
  change (Js.starts_with "FLOOD_WAIT_" ("FLOOD_WAIT_" +:+ ds +:+ rest)) with true.
  change (Js.drop 11 ("FLOOD_WAIT_" +:+ ds +:+ rest)) with (ds +:+ rest).
  rewrite (take_digits_app _ _ Hd Hr).
  apply String.eqb_neq in Hne. rewrite Hne. cbn [negb andb].
  rewrite Hne. reflexivity.
Qed.

(** The wait is never negative. It is the number written after the first
    [FLOOD_WAIT_] that digits follow: for a message that holds, after a text
    without the letter [F], [FLOOD_WAIT_], then the digits [ds], then
    something that is not a digit, it is the decimal value of [ds] when
    that value is below 2^53, so that a wait [n] below 2^53 that the
    transport writes there is read back as [n]. From 2^53 on the value is
    rounded to a double: 9007199254740993 is read as 9007199254740992. The
    wait is 60 for every message that does not hold [FLOOD_WAIT_]. *)
Theorem _extractFloodWaitTime_reads_the_wait :
  (forall errorMessage, 0 <= _extractFloodWaitTime errorMessage)
  /\ (forall before ds rest,
        Js.includes "F" before = false ->
        ds <> EmptyString -> Js.all_digits ds = true ->
        Js.take_digits rest = EmptyString ->
        Js.digits_value 0 ds < 2 ^ 53 ->
        _extractFloodWaitTime (before +:+ "FLOOD_WAIT_" +:+ ds +:+ rest)
        = Js.digits_value 0 ds)
  /\ (forall before n rest,
        Js.includes "F" before = false ->
        0 <= n < 2 ^ 53 ->
        Js.take_digits rest = EmptyString ->
        _extractFloodWaitTime
          (before +:+ "FLOOD_WAIT_" +:+ Js.to_string n +:+ rest)
        = n)
  /\ _extractFloodWaitTime "FLOOD_WAIT_9007199254740993" = 9007199254740992
  /\ (forall errorMessage,
        Js.includes "FLOOD_WAIT_" errorMessage = false ->
        _extractFloodWaitTime errorMessage = 60).
Proof.
  split; [exact _extractFloodWaitTime_nonneg |].
  split; [| split; [| split]].
  - intros before ds rest Hb Hne Hd Hr Hlt.
    rewrite (_extractFloodWaitTime_digits before ds rest Hb Hne Hd Hr).
    apply to_double_exact, Hlt.
  - intros before n rest Hb [Hn Hlt] Hr.
    destruct (to_string_digits n Hn) as (Hv & Hd & Hne).
    rewrite (_extractFloodWaitTime_digits before (Js.to_string n) rest Hb Hne Hd Hr).
    rewrite Hv. apply to_double_exact, Hlt.
  - vm_compute. reflexivity.
  - intros m H. unfold _extractFloodWaitTime.
    rewrite (match_FLOOD_WAIT_none _ H). reflexivity.
Qed.

Lemma _extractFloodWaitTime_reads_the_wait_witness :
  _extractFloodWaitTime "A wait is required (caused by FLOOD_WAIT_037)" = 37
  /\ _extractFloodWaitTime "420: FLOOD_WAIT_86400 (caused by messages.SendMessage)"
     = 86400
  /\ _extractFloodWaitTime "Too many requests" = 60.
Proof.
  destruct _extractFloodWaitTime_reads_the_wait
    as (_ & Hparse & Hround & _ & Hdefault).
  split; [| split].
  - apply (Hparse "A wait is required (caused by " "037" ")"); try reflexivity.
    discriminate.
  - apply (Hround "420: " 86400 " (caused by messages.SendMessage)");
      (reflexivity || lia).
  - apply (Hdefault "Too many requests"). reflexivity.
Defined.

End FloodWaitFacts.

(** ** What a run of the messenger leaves behind *)

Module RunFacts.
Import Messenger.

Section WithClient.

Variable W : Type.
Variable Timestamp : Type.
Variable client_sendMessage : W -> Entity -> string -> completion Z * W.
Variable now : W -> Timestamp.
Variable setTimeout : Z -> W -> W.

Implicit Types (s : Messenger.t W) (r : Outcome Timestamp).
Implicit Types (rs results : list (Outcome Timestamp)).

Abbreviation sendMessage := (Messenger.sendMessage client_sendMessage now).
Abbreviation pause_after := (Messenger.pause_after (Timestamp := Timestamp) setTimeout).
Abbreviation loop :=
  (Messenger.sendMessagesToAllTargets_loop client_sendMessage now setTimeout).
Abbreviation sendMessagesToAllTargets :=
  (Messenger.sendMessagesToAllTargets client_sendMessage now setTimeout).

(** *** One turn of the loop *)

(** What one send gives: an outcome of one of the three shapes, and one
    more entry in the log. *)
Lemma sendMessage_shape (target : Target) (message : string) s r s1 :
  sendMessage target message s = (Resolved r, s1) ->
  Run.well_shaped r /\ exists entry, logger s1 = logger s ++ [entry].
Proof.
  destruct (Spec.entity_of target) as [entity |] eqn:E.
  - destruct (client_sendMessage (world s) entity message) as [[n | e] w'] eqn:Hc.
    + rewrite (MessengerFacts.sendMessage_sent _ _ _ _ _ _ _ _ _ _ E Hc).
      intros [= <- <-]. split; [left; cbn; eauto | cbn; eauto].
    + destruct (Js.includes "FLOOD_WAIT" (err_message e)) eqn:Hf.
      * rewrite (MessengerFacts.sendMessage_rate_limited _ _ _ _ _ _ _ _ _ _ E Hc Hf).
        intros [= <- <-]. split; [| cbn; eauto].
        right; left. cbn. repeat split. eexists. split; [reflexivity |].
        apply FloodWaitFacts._extractFloodWaitTime_nonneg.
      * rewrite (MessengerFacts.sendMessage_failed _ _ _ _ _ _ _ _ _ _ E Hc Hf).
        intros [= <- <-]. split; [right; right; cbn; eauto | cbn; eauto].
  - rewrite (MessengerFacts.sendMessage_invalid_target _ _ _ _ _ _ _ E).
    intros [= <- <-]. split; [right; right; cbn; eauto | cbn; eauto].
Qed.


Lemma pause_after_logger r (delay : Z) s1 s2 :
  pause_after r delay s1 = (Normal tt, s2) ->
  exists entries, logger s2 = logger s1 ++ entries.
Proof.
  unfold Messenger.pause_after.
  destruct (rate_limited r); intros [= <-]; cbn.
  - eauto.
  - exists []. symmetry. apply app_nil_r.
Qed.

(** The loop, with all that it leaves: the outcomes, their shapes, the
    sends and pauses, and a log that only grows. *)
Lemma loop_run (message : string) (delay : Z) (targets : list Target) :
  forall results s,
  exists rs s' entries,
    loop targets message delay results s = (Normal (results ++ rs), s')
    /\ target <$> rs = targets
    /\ effects s' = effects s ++ Spec.trace message delay rs
    /\ Forall Run.well_shaped rs
    /\ logger s' = logger s ++ entries.
Proof.
  induction targets as [| tg targets IH]; intros results s.
  - exists [], s, []. cbn. rewrite !app_nil_r. auto.
  - destruct (MessengerFacts.loop_cons _ _ client_sendMessage now setTimeout
                tg targets message delay results s)
      as (r & s1 & s2 & E & P & L).
    destruct (MessengerFacts.sendMessage_resolves _ _ client_sendMessage now
                tg message s) as (r' & s1' & E' & Ht & Hs).
    rewrite E in E'. injection E' as <- <-.
    destruct (MessengerFacts.pause_after_spec _ _ setTimeout r delay s1)
      as (s2' & P' & Hp & _).
    rewrite P in P'. injection P' as <-.
    destruct (sendMessage_shape _ _ _ _ _ E) as (Hshape & entry & Hl1).
    destruct (pause_after_logger _ _ _ _ P) as (entries2 & Hl2).
    destruct (IH (results ++ [r]) s2) as (rs & s' & entries & Hl & Hts & Hes & Hws & Hlog).
    exists (r :: rs), s', ([entry] ++ entries2 ++ entries).
    rewrite L, Hl.
    split; [rewrite <- app_assoc; reflexivity |].
    split; [rewrite fmap_cons, Ht, Hts; reflexivity |].
    split; [| split; [constructor; assumption |]].
    + rewrite Hes, Hp, Hs. unfold Spec.trace. cbn [flat_map]. rewrite Ht.
      rewrite <- !app_assoc. reflexivity.
    + rewrite Hlog, Hl2, Hl1, <- !app_assoc. reflexivity.
Qed.

(** The whole run, with all that it leaves. *)
Lemma run_spec (targets : list Target) (message : string)
    (delayBetweenMessages : option Z) s :
  exists results s' entries,
    sendMessagesToAllTargets (TArray targets) message delayBetweenMessages s
    = (Resolved results, s')
    /\ target <$> results = targets
    /\ effects s'
       = effects s
         ++ Spec.trace message (default 2000 delayBetweenMessages) results
    /\ Forall Run.well_shaped results
    /\ logger s'
       = logger s
         ++ [(Logger.info,
              "Starting to send messages to "
              +:+ Js.to_string (Z.of_nat (length targets)) +:+ " targets")]
         ++ entries
         ++ [(Logger.info,
              "Completed sending messages. Success: "
              +:+ Js.to_string
                    (Z.of_nat (length (filter (fun r => success r = true) results)))
              +:+ "/" +:+ Js.to_string (Z.of_nat (length targets)))].
Proof.
  unfold Messenger.sendMessagesToAllTargets, async.
  unfold bind at 1. unfold log at 1. cbn beta iota. unfold bind at 1.
  match goal with
  | |- context [sendMessagesToAllTargets_loop _ _ _ _ _ ?d _ ?s0] =>
      destruct (loop_run message d targets [] s0)
        as (rs & s1 & entries & L & Ht & He & Hws & Hlog)
  end.
  rewrite L. unfold bind, log, ret. cbn [app].
  eexists rs, _, entries. split; [reflexivity |].
  split; [exact Ht |]. split; [exact He |]. split; [exact Hws |].
  cbn [logger]. rewrite Hlog. cbn [logger]. rewrite <- !app_assoc. reflexivity.
Qed.

(** *** Sends and pauses *)

Lemma sends_trace (message : string) (delay : Z) rs :
  Run.sends (Spec.trace message delay rs)
  = omap (fun tg => (fun entity => (entity, message)) <$> Spec.entity_of tg)
         (target <$> rs).
Proof.
  induction rs as [| r rs IH]; [reflexivity |].
  unfold Spec.trace, Run.sends in *. cbn [flat_map fmap list_fmap omap list_omap].
  rewrite flat_map_app, IH.
  destruct (Spec.entity_of (target r)); reflexivity.
Qed.

Lemma pauses_trace (message : string) (delay : Z) rs :
  Run.pauses (Spec.trace message delay rs) = Spec.pause_of delay <$> rs.
Proof.
  induction rs as [| r rs IH]; [reflexivity |].
  unfold Spec.trace, Run.pauses in *. cbn [flat_map fmap list_fmap].
  rewrite flat_map_app, IH.
  destruct (Spec.entity_of (target r)); reflexivity.
Qed.

Lemma pause_of_bounds (delay : Z) r :
  Run.well_shaped r ->
  Spec.pause_of delay r = delay \/ 1000 <= Spec.pause_of delay r.
Proof.
  unfold Spec.pause_of, rate_limited, Run.well_shaped.
  intros [(_ & _ & -> & _) | [(_ & _ & -> & n & -> & Hn) | (_ & _ & _ & ->)]];
    cbn; rewrite ?andb_false_r; auto.
  destruct (negb (n =? 0)); [| auto].
  right. lia.
Qed.

(** Every target gets at most one send and exactly one pause: the sends
    of a run are, in order, one to the entity of each target that
    designates one, and nothing is sent twice; the pauses are as many as the
    targets, and each is the delay between messages or at least a second. *)
Theorem one_send_and_one_pause_per_target (targets : list Target)
    (message : string) (delayBetweenMessages : option Z) s :
  exists results s' new,
    sendMessagesToAllTargets (TArray targets) message delayBetweenMessages s
    = (Resolved results, s')
    /\ effects s' = effects s ++ new
    /\ Run.sends new
       = omap (fun tg => (fun entity => (entity, message)) <$> Spec.entity_of tg)
              targets
    /\ length (Run.pauses new) = length targets
    /\ Forall (fun ms => ms = default 2000 delayBetweenMessages \/ 1000 <= ms)
              (Run.pauses new).
Proof.
  destruct (run_spec targets message delayBetweenMessages s)
    as (results & s' & entries & E & Ht & He & Hws & _).
  eexists results, s', _. split; [exact E |]. split; [exact He |].
  split; [rewrite sends_trace, Ht; reflexivity |].
  rewrite pauses_trace. split.
  - rewrite length_fmap, <- Ht, length_fmap. reflexivity.
  - apply Forall_fmap. eapply Forall_impl; [exact Hws |].
    intros r Hr. cbn. apply pause_of_bounds, Hr.
Qed.

(** Every outcome of a run has one of three shapes: a success with the id
    of the message and no error; a rate limit, with the error
    [RATE_LIMITED] and a wait that is not negative; or a failure with an
    error message and no wait. *)
Theorem outcomes_are_well_shaped (targets : list Target) (message : string)
    (delayBetweenMessages : option Z) s :
  exists results s',
    sendMessagesToAllTargets (TArray targets) message delayBetweenMessages s
    = (Resolved results, s')
    /\ Forall Run.well_shaped results.
Proof.
  destruct (run_spec targets message delayBetweenMessages s)
    as (results & s' & entries & E & _ & _ & Hws & _).
  eauto.
Qed.

(** The log of a run starts with the number of targets and ends with the
    count of successful outcomes over the number of targets; what was
    logged before the run is kept. *)
Theorem run_log_summary (targets : list Target) (message : string)
    (delayBetweenMessages : option Z) s :
  exists results s' entries,
    sendMessagesToAllTargets (TArray targets) message delayBetweenMessages s
    = (Resolved results, s')
    /\ logger s'
       = logger s
         ++ [(Logger.info,
              "Starting to send messages to "
              +:+ Js.to_string (Z.of_nat (length targets)) +:+ " targets")]
         ++ entries
         ++ [(Logger.info,
              "Completed sending messages. Success: "
              +:+ Js.to_string
                    (Z.of_nat (length (filter (fun r => success r = true) results)))
              +:+ "/" +:+ Js.to_string (Z.of_nat (length targets)))]
    /\ (length (filter (fun r => success r = true) results) <= length targets)%nat.
Proof.
  destruct (run_spec targets message delayBetweenMessages s)
    as (results & s' & entries & E & Ht & _ & _ & Hlog).
  exists results, s', entries. split; [exact E |]. split; [exact Hlog |].
  rewrite <- Ht, length_fmap. apply length_filter.
Qed.


(** *** Failures that are not rate limits *)

(** A send that fails with a message without [FLOOD_WAIT] is reported with
    that message and no wait, and the pause before the next target is the
    delay between messages. *)
Theorem transport_failure_keeps_the_delay (target : Target) (message : string)
    (delay : Z) s (entity : Entity) (e : exn) (w' : W) :
  Spec.entity_of target = Some entity ->
  client_sendMessage (world s) entity message = (Throw e, w') ->
  Js.includes "FLOOD_WAIT" (err_message e) = false ->
  exists r s1 s2,
    sendMessage target message s = (Resolved r, s1)
    /\ success r = false
    /\ error r = Some (err_message e)
    /\ waitTime r = None
    /\ pause_after r delay s1 = (Normal tt, s2)
    /\ effects s2 = effects s ++ [Sent entity message; Slept delay]
    /\ logger s2
       = logger s ++ [(Logger.error,
                       "Failed to send message to " +:+ describe target
                       +:+ ": " +:+ err_message e)].
Proof.
  intros E Hc Hf.
  eexists _, _, _.
  split; [apply (MessengerFacts.sendMessage_failed _ _ _ _ _ _ _ _ _ _ E Hc Hf) |].
  split; [reflexivity |]. split; [reflexivity |]. split; [reflexivity |].
  unfold Messenger.pause_after, rate_limited.
  cbn [error waitTime truthy_number]. rewrite andb_false_r.
  split; [reflexivity |]. cbn. rewrite <- app_assoc. auto.
Qed.

(** *** When every send succeeds *)

Lemma loop_all_sent (message : string) (delay : Z) (targets : list Target) :
  (forall w entity text, exists n w', client_sendMessage w entity text = (Normal n, w')) ->
  Forall (fun tg => is_Some (Spec.entity_of tg)) targets ->
  forall results s,
  exists rs s',
    loop targets message delay results s = (Normal (results ++ rs), s')
    /\ Forall (fun r => success r = true /\ error r = None) rs.
Proof.
  intros Hok. induction 1 as [| tg targets [entity E] _ IH]; intros results s.
  - exists [], s. cbn. rewrite app_nil_r. auto.
  - destruct (MessengerFacts.loop_cons _ _ client_sendMessage now setTimeout
                tg targets message delay results s)
      as (r & s1 & s2 & Es & P & L).
    destruct (Hok (world s) entity message) as (n & w' & Hc).
    rewrite (MessengerFacts.sendMessage_sent _ _ _ _ _ _ _ _ _ _ E Hc) in Es.
    injection Es as <- <-.
    destruct (IH (results ++ [{| success := true; target := tg;
                                 messageId := Some n; error := None;
                                 waitTime := None; timestamp := now w' |}]) s2)
      as (rs & s' & Hl & Hall).
    eexists (_ :: rs), s'. rewrite L, Hl.
    split; [rewrite <- app_assoc; reflexivity |].
    constructor; [split; reflexivity | exact Hall].
Qed.

(** When the transport accepts every send and every target designates an
    entity, every outcome of the run is a success, every pause is the delay
    between messages, and the summary counts all the targets. *)
Theorem all_sent_run (targets : list Target) (message : string)
    (delayBetweenMessages : option Z) s :
  (forall w entity text, exists n w', client_sendMessage w entity text = (Normal n, w')) ->
  Forall (fun tg => is_Some (Spec.entity_of tg)) targets ->
  exists results s' new,
    sendMessagesToAllTargets (TArray targets) message delayBetweenMessages s
    = (Resolved results, s')
    /\ Forall (fun r => success r = true) results
    /\ length (filter (fun r => success r = true) results) = length targets
    /\ effects s' = effects s ++ new
    /\ Run.pauses new
       = replicate (length targets) (default 2000 delayBetweenMessages).
Proof.
  intros Hok Hvalid.
  destruct (run_spec targets message delayBetweenMessages s)
    as (results & s' & entries & E & Ht & He & _ & _).
  match goal with
  | |- context [sendMessagesToAllTargets (TArray ?ts) _ _ _] =>
      pose proof (MessengerFacts.sendMessagesToAllTargets_loop_result _ _
                    client_sendMessage now setTimeout ts message
                    delayBetweenMessages s) as R
  end.
  match type of R with
  | forall rs s1, loop _ _ ?d _ ?st = _ -> _ =>
      destruct (loop_all_sent message d targets Hok Hvalid [] st)
        as (rs & s1 & L & Hall)
  end.
  destruct (R _ _ L) as (s'' & E' & _). rewrite E in E'.
  injection E' as <- _. cbn [app] in Hall.
  assert (Hs : Forall (fun r => success r = true) results)
    by (eapply Forall_impl; [exact Hall |]; intros r [H _]; exact H).
  eexists results, s', _. split; [exact E |]. split; [exact Hs |].
  split; [| split; [exact He |]].
  - rewrite <- Ht, length_fmap. f_equal.
    clear -Hs. induction Hs as [| r rs Hr _ IH]; [reflexivity |].
    rewrite filter_cons_True by exact Hr. f_equal. exact IH.
  - rewrite pauses_trace, <- Ht, length_fmap.
    clear -Hall. induction Hall as [| r rs [_ Hr] _ IH]; [reflexivity |].
    cbn [fmap list_fmap length replicate]. f_equal; [| exact IH].
    unfold Spec.pause_of, rate_limited. rewrite Hr. reflexivity.
Qed.


(** *** The dispatch as a scheduled task *)

(** What [main] sets up: the task of the application, scheduled with an
    expression that node-cron accepts, with options that it accepts ([main]
    gives none) and a task that it starts, fires as a whole run of the
    messenger over the targets. The firing resolves, the scheduler logs no
    error, and the messenger is left as the run leaves it. *)
Theorem scheduled_dispatch_runs (Options : Type) (validate : string -> bool)
    (autostart : Options -> bool) (refused : Options -> option exn)
    (cronExpression : string) (options : Options)
    (targets : list Target) (message : string) (messageDelay : option Z)
    (sch : Scheduler.t (Messenger.t W) Options) (m : Messenger.t W) :
  validate cronExpression = true ->
  refused options = None ->
  autostart options = true ->
  exists (h : nat) sch1 sch2 results m',
    Scheduler.scheduleTask validate autostart refused cronExpression
      (Main.sendTask client_sendMessage now setTimeout (TArray targets) message
         messageDelay)
      options sch
    = (Normal h, sch1)
    /\ Scheduler.fire h sch1 m = Some (Resolved tt, sch2, m')
    /\ sendMessagesToAllTargets (TArray targets) message
         (Some (Main.messageDelay_or_default messageDelay)) m
       = (Resolved results, m')
    /\ Scheduler.logger sch2
       = Scheduler.logger sch1
         ++ [(Logger.info, "Running scheduled task: " +:+ cronExpression)]
    /\ Scheduler.scheduledTasks sch2 = Scheduler.scheduledTasks sch ++ [h].
Proof.
  intros Hv Ho Ha.
  destruct (run_spec targets message
              (Some (Main.messageDelay_or_default messageDelay)) m)
    as (results & m' & entries & E & _).
  rewrite (SchedulerFacts.scheduleTask_accepted _ _ _ _ _ _ _ _ _ Hv Ho).
  eexists _, _, _, results, m'. split; [reflexivity |].
  unfold Scheduler.fire. cbn [Scheduler.cron].
  rewrite list_lookup_middle by reflexivity.
  cbn [Scheduler.running Scheduler.expression Scheduler.func]. rewrite Ha.
  unfold Scheduler.scheduled_callback, Main.sendTask. rewrite E.
  split; [reflexivity |]. split; [reflexivity |]. split; reflexivity.
Qed.

End WithClient.


(** *** On the scripted transport *)

Lemma transport_failure_keeps_the_delay_witness :
  exists r s1 s2,
    Scripted.sendMessage Scripted.group "hi"
      (Scripted.start [Throw (Error "CHAT_WRITE_FORBIDDEN")])
    = (Resolved r, s1)
    /\ success r = false
    /\ error r = Some "CHAT_WRITE_FORBIDDEN"
    /\ waitTime r = None
    /\ Messenger.pause_after Scripted.setTimeout r 100 s1 = (Normal tt, s2)
    /\ effects s2 = [] ++ [Sent (EntityName "g") "hi"; Slept 100]
    /\ logger s2
       = [] ++ [(Logger.error,
                 "Failed to send message to group g: CHAT_WRITE_FORBIDDEN")].
Proof.
  apply (transport_failure_keeps_the_delay Scripted.world Z
           Scripted.client_sendMessage Scripted.now Scripted.setTimeout
           Scripted.group "hi" 100
           (Scripted.start [Throw (Error "CHAT_WRITE_FORBIDDEN")])
           (EntityName "g") (Error "CHAT_WRITE_FORBIDDEN")
           {| Scripted.clock := 0; Scripted.replies := [] |});
    reflexivity.
Defined.

Lemma all_sent_run_witness :
  let send := fun (w : Z) (_ : Entity) (_ : string) => (Normal w, w + 1) in
  let s := {| world := 7; logger := []; effects := [] |} in
  exists results s' new,
    Messenger.sendMessagesToAllTargets send (fun w => w) (fun _ w => w)
      (TArray [Scripted.chat; Scripted.group]) "hi" None s
    = (Resolved results, s')
    /\ Forall (fun r => success r = true) results
    /\ length (filter (fun r => success r = true) results) = 2%nat
    /\ effects s' = [] ++ new
    /\ Run.pauses new = [2000; 2000].
Proof.
  intros send s.
  apply (all_sent_run Z Z send (fun w => w) (fun _ w => w)
           [Scripted.chat; Scripted.group] "hi" None s).
  - intros w entity text. exists w, (w + 1). reflexivity.
  - repeat constructor; eexists; reflexivity.
Defined.

Lemma scheduled_dispatch_runs_witness :
  exists (h : nat) sch1 sch2 results m',
    Scripted.scheduleTask "*/15 * * * *"
      (Scripted.sendTask (TArray [Scripted.chat; Scripted.nobody]) "hi" (Some 0))
      tt (Scripted.fresh (Messenger.t Scripted.world))
    = (Normal h, sch1)
    /\ Scheduler.fire h sch1 (Scripted.start [Throw (Error "FLOOD_WAIT_3")])
       = Some (Resolved tt, sch2, m')
    /\ Scripted.sendMessagesToAllTargets (TArray [Scripted.chat; Scripted.nobody])
         "hi" (Some (Main.messageDelay_or_default (Some 0)))
         (Scripted.start [Throw (Error "FLOOD_WAIT_3")])
       = (Resolved results, m')
    /\ Scheduler.logger sch2
       = Scheduler.logger sch1
         ++ [(Logger.info, "Running scheduled task: */15 * * * *")]
    /\ Scheduler.scheduledTasks sch2 = [] ++ [h].
Proof.
  apply (scheduled_dispatch_runs Scripted.world Z Scripted.client_sendMessage
           Scripted.now Scripted.setTimeout unit Scripted.validate5
           (fun _ => true) (fun _ => None) "*/15 * * * *" tt
           [Scripted.chat; Scripted.nobody]
           "hi" (Some 0) (Scripted.fresh (Messenger.t Scripted.world))
           (Scripted.start [Throw (Error "FLOOD_WAIT_3")]));
    reflexivity.
Defined.

End RunFacts.

(** ** The session manager *)

Module SessionFacts.
Import SessionManager.

Section WithFs.

Variable FS : Type.
Variable path_resolve : string -> string.
Variable path_join : string -> string -> string.
Variable existsSync : string -> FS -> bool.
Variable mkdirSync : string -> FS -> completion unit * FS.
Variable readFileSync : string -> FS -> completion string.
Variable writeFileSync : string -> string -> FS -> completion unit * FS.
Variable unlinkSync : string -> FS -> completion unit * FS.

Implicit Types (this : SessionManager.t) (w : world FS).

Abbreviation constructor :=
  (SessionManager.constructor path_resolve path_join existsSync mkdirSync).
Abbreviation getSession := (SessionManager.getSession existsSync readFileSync).
Abbreviation saveSession := (SessionManager.saveSession writeFileSync).
Abbreviation clearSession := (SessionManager.clearSession existsSync unlinkSync).

(** [getSession] never throws and never changes the file system. It
    returns the content of the session file when the file exists and can be
    read; it returns the empty string when there is no file, silently, and
    when the file cannot be read, after logging the error. *)
Theorem getSession_never_throws this w :
  exists session entries,
    getSession this w
    = (Normal session, {| fs := fs w; logger := logger w ++ entries |})
    /\ match existsSync (sessionFilePath this) (fs w),
             readFileSync (sessionFilePath this) (fs w) with
       | true, Normal content =>
           session = content
           /\ entries = [(Logger.info, "Session loaded successfully")]
       | true, Throw e =>
           session = EmptyString
           /\ entries = [(Logger.error,
                          "Failed to read session file: " +:+ err_message e)]
       | false, _ => session = EmptyString /\ entries = []
       end.
Proof.
  unfold SessionManager.getSession, bind, try_catch, exists_, read, log, ret.
  destruct w as [f l]. simpl.
  destruct (existsSync (sessionFilePath this) f); simpl.
  - destruct (readFileSync (sessionFilePath this) f) as [content | e]; simpl;
      eexists _, _; (split; [reflexivity | auto]).
  - exists EmptyString, []. rewrite app_nil_r.
    destruct (readFileSync (sessionFilePath this) f); auto.
Qed.

(** [saveSession] never throws: it returns [true] exactly when the write
    went through and [false] when the write threw, after logging the error.
    The file system is what the write left. *)
Theorem saveSession_reports_the_write this (session : string) w :
  exists (saved : bool) entry,
    saveSession this session w
    = (Normal saved,
       {| fs := snd (writeFileSync (sessionFilePath this) session (fs w));
          logger := logger w ++ [entry] |})
    /\ match fst (writeFileSync (sessionFilePath this) session (fs w)) with
       | Normal _ =>
           saved = true /\ entry = (Logger.info, "Session saved successfully")
       | Throw e =>
           saved = false
           /\ entry = (Logger.error,
                       "Failed to save session: " +:+ err_message e)
       end.
Proof.
  unfold SessionManager.saveSession, bind, try_catch, write, log, ret.
  destruct w as [f l]. simpl.
  destruct (writeFileSync (sessionFilePath this) session f) as [[[] | e] f'];
    simpl; eexists _, _; (split; [reflexivity | auto]).
Qed.

(** [clearSession] never throws. Without a session file it returns [true]
    and touches nothing. With one, it unlinks the file and returns [true],
    or returns [false] when the unlink threw, after logging the error. *)
Theorem clearSession_reports_the_unlink this w :
  if existsSync (sessionFilePath this) (fs w) then
    exists (cleared : bool) entry,
      clearSession this w
      = (Normal cleared,
         {| fs := snd (unlinkSync (sessionFilePath this) (fs w));
            logger := logger w ++ [entry] |})
      /\ match fst (unlinkSync (sessionFilePath this) (fs w)) with
         | Normal _ =>
             cleared = true
             /\ entry = (Logger.info, "Session cleared successfully")
         | Throw e =>
             cleared = false
             /\ entry = (Logger.error,
                         "Failed to clear session: " +:+ err_message e)
         end
  else clearSession this w = (Normal true, w).
Proof.
  unfold SessionManager.clearSession, bind, try_catch, exists_, unlink, log, ret.
  destruct w as [f l]. simpl.
  destruct (existsSync (sessionFilePath this) f); simpl; [| reflexivity].
  destruct (unlinkSync (sessionFilePath this) f) as [[[] | e] f'];
    simpl; eexists _, _; (split; [reflexivity | auto]).
Qed.

(** A session that was saved is the session that is read back, on a file
    system where a file that was written exists and reads as written. *)
Theorem saved_session_is_read_back this (session : string) w w1 :
  (forall f', writeFileSync (sessionFilePath this) session (fs w) = (Normal tt, f') ->
              existsSync (sessionFilePath this) f' = true
              /\ readFileSync (sessionFilePath this) f' = Normal session) ->
  saveSession this session w = (Normal true, w1) ->
  getSession this w1
  = (Normal session,
     {| fs := fs w1;
        logger := logger w1 ++ [(Logger.info, "Session loaded successfully")] |}).
Proof.
  intros Hlaw. unfold SessionManager.saveSession, bind, try_catch, write, log, ret.
  destruct w as [f l]. simpl in *.
  destruct (writeFileSync (sessionFilePath this) session f) as [[[] | e] f'];
    simpl; [| discriminate].
  intros [= <-]. destruct (Hlaw f' eq_refl) as [He Hr].
  unfold SessionManager.getSession, bind, try_catch, exists_, read, log, ret.
  simpl. rewrite He. simpl. rewrite Hr. reflexivity.
Qed.

(** After a [clearSession] that returned [true], [getSession] returns the
    empty string, on a file system where a file that was unlinked no longer
    exists. *)
Theorem cleared_session_reads_empty this w w1 :
  (forall f', unlinkSync (sessionFilePath this) (fs w) = (Normal tt, f') ->
              existsSync (sessionFilePath this) f' = false) ->
  clearSession this w = (Normal true, w1) ->
  getSession this w1 = (Normal EmptyString, w1).
Proof.
  intros Hlaw. unfold SessionManager.clearSession, bind, try_catch, exists_, unlink, log, ret.
  destruct w as [f l]. simpl in *.
  destruct (existsSync (sessionFilePath this) f) eqn:He; simpl.
  - destruct (unlinkSync (sessionFilePath this) f) as [[[] | e] f'];
      simpl; [| discriminate].
    intros [= <-]. specialize (Hlaw f' eq_refl).
    unfold SessionManager.getSession, bind, try_catch, exists_, read, log, ret.
    simpl. rewrite Hlaw. reflexivity.
  - intros [= <-].
    unfold SessionManager.getSession, bind, try_catch, exists_, read, log, ret.
    simpl. rewrite He. reflexivity.
Qed.

(** The constructor makes the session directory only when it is missing:
    with the directory in place it touches nothing and logs nothing. When
    the directory cannot be made, the constructor throws what [mkdirSync]
    threw. The session file is [session.json] in the resolved directory. *)
Theorem constructor_makes_the_directory_when_missing (sessionDir : option string) w :
  let dir := path_resolve (default "./session" sessionDir) in
  let this := {| SessionManager.sessionDir := dir;
                 sessionFilePath := path_join dir "session.json" |} in
  if existsSync dir (fs w) then constructor sessionDir w = (Normal this, w)
  else
    match fst (mkdirSync dir (fs w)) with
    | Normal _ =>
        constructor sessionDir w
        = (Normal this,
           {| fs := snd (mkdirSync dir (fs w));
              logger := logger w
                        ++ [(Logger.info, "Created session directory: " +:+ dir)] |})
    | Throw e =>
        constructor sessionDir w
        = (Throw e, {| fs := snd (mkdirSync dir (fs w)); logger := logger w |})
    end.
Proof.
  intros dir this.
  unfold SessionManager.constructor, bind, exists_, mkdir, log, ret.
  fold dir. destruct w as [f l]. simpl.
  destruct (existsSync dir f); simpl; [reflexivity |].
  destruct (mkdirSync dir f) as [[[] | e] f']; reflexivity.
Qed.

End WithFs.

(** *** On the file system in memory *)

Lemma saved_session_is_read_back_witness :
  let w1 := snd (InMemory.saveSession InMemory.manager "1BQANOTEuMTA4"
                   InMemory.empty) in
  InMemory.getSession InMemory.manager w1
  = (Normal "1BQANOTEuMTA4",
     {| fs := fs w1;
        logger := logger w1 ++ [(Logger.info, "Session loaded successfully")] |}).
Proof.
  intros w1.
  apply (saved_session_is_read_back InMemory.FS InMemory.existsSync
           InMemory.readFileSync InMemory.writeFileSync InMemory.manager
           "1BQANOTEuMTA4" InMemory.empty w1).
  - intros f' [= <-]. split; reflexivity.
  - reflexivity.
Defined.

Lemma cleared_session_reads_empty_witness :
  let w0 := snd (InMemory.saveSession InMemory.manager "1BQANOTEuMTA4"
                   InMemory.empty) in
  let w1 := snd (InMemory.clearSession InMemory.manager w0) in
  InMemory.getSession InMemory.manager w0 <> (Normal EmptyString, w0)
  /\ InMemory.getSession InMemory.manager w1 = (Normal EmptyString, w1).
Proof.
  intros w0 w1. split; [discriminate |].
  apply (cleared_session_reads_empty InMemory.FS InMemory.existsSync
           InMemory.readFileSync InMemory.unlinkSync InMemory.manager w0 w1).
  - intros f' [= <-]. reflexivity.
  - reflexivity.
Defined.

End SessionFacts.

(** ** Authentication *)

Module AuthFacts.
Import TelegramAuth.

Section WithClient.

Variable W : Type.
Variable FS : Type.
Variable User : Type.
Variable isUserAuthorized : W -> ending bool * W.
Variable getMe : W -> ending User * W.
Variable session_save : W -> ending string.
Variable question : string -> W -> string * W.
Variable writeFileSync : string -> string -> FS -> completion unit * FS.
Variable client_start :
  Callbacks W FS -> TelegramAuth.t W FS -> ending unit * TelegramAuth.t W FS.

Implicit Types (s : TelegramAuth.t W FS) (sessionManager : SessionManager.t).

Abbreviation authenticate :=
  (TelegramAuth.authenticate isUserAuthorized session_save question
     writeFileSync client_start).
Abbreviation getCurrentUser :=
  (TelegramAuth.getCurrentUser (FS := FS) isUserAuthorized getMe).

(** Case analysis on every call that the body makes. *)
Ltac reduce_body :=
  cbn [negb orb fst snd outside disk SessionManager.fs SessionManager.logger].

(** The next call of the body that stands in the goal. *)
Ltac next_call :=
  match goal with
  | |- context [Messenger.truthy_string ?x] =>
      destruct (Messenger.truthy_string x) eqn:?
  | |- context [truthy_ApiId ?x] => destruct (truthy_ApiId x) eqn:?
  | |- context [Js.starts_with ?a ?b] => destruct (Js.starts_with a b) eqn:?
  | |- context [isUserAuthorized ?w] =>
      destruct (isUserAuthorized w) as [[[|] | ?] ?] eqn:?
  | |- context [client_start ?c ?st] =>
      destruct (client_start c st) as [[[] | ?] ?] eqn:?
  | |- context [session_save ?w] => destruct (session_save w) eqn:?
  | |- context [writeFileSync ?a ?b ?c] =>
      destruct (writeFileSync a b c) as [[[] | ?] ?] eqn:?
  | |- context [getMe ?w] => destruct (getMe w) as [[? | ?] ?] eqn:?
  | |- context [thrown_message ?err] =>
      is_var err; destruct err as [? | ? |]
  end.

Ltac run_body :=
  unfold TelegramAuth.authenticate, TelegramAuth.getCurrentUser,
    async_try_catch, log_message_and_return, bind, throw, lift, ret, log,
    on_client, sessionManager_saveSession,
    SessionManager.saveSession, SessionManager.try_catch, SessionManager.bind,
    SessionManager.write, SessionManager.log, SessionManager.ret;
  reduce_body;
  repeat (next_call; reduce_body; cbn [thrown_message]).

(** [authenticate] resolves to [true] or [false], whatever the client, the
    console and the disk do, with one exception. When a call to the
    client ([isUserAuthorized], [start], [session.save]) throws [null] or
    [undefined], the [catch] block throws on reading [message]:
    [authenticate] rejects with that [TypeError]. It rejects in no other
    case, and it does reject when the first call to the client throws
    such a value. *)
Theorem authenticate_rejects_only_on_nullish sessionManager
    (phoneNumber : option string) (apiId : ApiId) (apiHash : option string) s :
  match authenticate sessionManager phoneNumber apiId apiHash s with
  | (Resolved authenticated, _) => True
  | (Rejected e, _) =>
      exists n : nullish,
        e = cannot_read n "message"
        /\ ((exists w w', isUserAuthorized w = (Threw (ThrownNullish n), w'))
            \/ (exists cbs st st',
                  client_start cbs st = (Threw (ThrownNullish n), st'))
            \/ (exists w, session_save w = Threw (ThrownNullish n)))
  end
  /\ forall (n : nullish) (w1 : W),
       Messenger.truthy_string phoneNumber = true ->
       truthy_ApiId apiId = true ->
       Messenger.truthy_string apiHash = true ->
       isUserAuthorized (outside s) = (Threw (ThrownNullish n), w1) ->
       exists s',
         authenticate sessionManager phoneNumber apiId apiHash s
         = (Rejected (cannot_read n "message"), s')
         /\ SessionManager.fs (disk s') = SessionManager.fs (disk s).
Proof.
  split.
  - run_body; try exact I; eexists; (split; [reflexivity |]); eauto 8.
  - intros n w1 Hp Hi Hh Ha. unfold TelegramAuth.authenticate.
    rewrite Hp, Hi, Hh.
    unfold async_try_catch, log_message_and_return, bind, throw, ret, log,
      on_client.
    destruct (Js.starts_with "+" (default "" phoneNumber));
      destruct s as [w d]; simpl in *; rewrite Ha; simpl; eauto.
Qed.


(** Without a phone number, an API id or an API hash, [authenticate]
    resolves to [false] before it calls the client: the world outside and
    the files on disk are as they were. An empty phone number or hash, and
    an id that is 0 or not a number, count as missing. *)
Theorem authenticate_refuses_missing_input sessionManager
    (phoneNumber : option string) (apiId : ApiId) (apiHash : option string) s :
  Messenger.truthy_string phoneNumber = false
  \/ truthy_ApiId apiId = false
  \/ Messenger.truthy_string apiHash = false ->
  exists s',
    authenticate sessionManager phoneNumber apiId apiHash s = (Resolved false, s')
    /\ outside s' = outside s
    /\ SessionManager.fs (disk s') = SessionManager.fs (disk s).
Proof.
  intros [H | [H | H]]; unfold TelegramAuth.authenticate; rewrite H;
    rewrite ?orb_true_r; run_body; eauto.
Qed.

(** When the client says that the user is authorized, [authenticate]
    resolves to [true] at once: [client.start] is not called and nothing is
    written to disk. *)
Theorem authenticate_uses_the_saved_session sessionManager
    (phoneNumber : option string) (apiId : ApiId) (apiHash : option string)
    s (w1 : W) :
  Messenger.truthy_string phoneNumber = true ->
  truthy_ApiId apiId = true ->
  Messenger.truthy_string apiHash = true ->
  isUserAuthorized (outside s) = (Returned true, w1) ->
  exists s',
    authenticate sessionManager phoneNumber apiId apiHash s = (Resolved true, s')
    /\ outside s' = w1
    /\ SessionManager.fs (disk s') = SessionManager.fs (disk s).
Proof.
  intros Hp Hi Hh Ha. unfold TelegramAuth.authenticate. rewrite Hp, Hi, Hh.
  unfold async_try_catch, log_message_and_return, bind, throw, ret, log,
    on_client.
  destruct (Js.starts_with "+" (default "" phoneNumber));
    destruct s as [w d]; simpl in *; rewrite Ha; simpl; eauto.
Qed.

(** [authenticate] resolves to [true] only when the client has just said
    that the user is authorized, and the world outside is as that call
    left it. *)
Theorem authenticate_true_means_authorized sessionManager
    (phoneNumber : option string) (apiId : ApiId) (apiHash : option string) s s' :
  authenticate sessionManager phoneNumber apiId apiHash s = (Resolved true, s') ->
  exists w, isUserAuthorized w = (Returned true, outside s').
Proof.
  run_body; intros [= <-]; simpl; eauto; discriminate.
Qed.


(** The login. With a phone number, an id and a hash, and a client that
    says that the user is not authorized, [authenticate] calls
    [client.start], with callbacks that give the phone number with a [+] in
    front, on a disk that is as it was. If [start] returns and the client
    then says that the user is authorized, [authenticate] resolves to
    [true] and the session of the client has been written to the session
    file, whether the write went through or not. If [start] throws an
    error, or the client still says no, it resolves to [false] and writes
    nothing. *)
Theorem authenticate_logs_in_and_saves sessionManager (phone : string)
    (apiId : ApiId) (apiHash : option string) s (w1 : W) :
  phone <> EmptyString ->
  truthy_ApiId apiId = true ->
  Messenger.truthy_string apiHash = true ->
  isUserAuthorized (outside s) = (Returned false, w1) ->
  exists s1,
    outside s1 = w1
    /\ SessionManager.fs (disk s1) = SessionManager.fs (disk s)
    /\ (forall s2 (w3 : W) (session : string),
          client_start (callbacks question (ScriptedClient.with_plus phone)) s1
          = (Returned tt, s2) ->
          isUserAuthorized (outside s2) = (Returned true, w3) ->
          session_save w3 = Returned session ->
          exists s',
            authenticate sessionManager (Some phone) apiId apiHash s
            = (Resolved true, s')
            /\ outside s' = w3
            /\ SessionManager.fs (disk s')
               = snd (writeFileSync (SessionManager.sessionFilePath sessionManager)
                        session (SessionManager.fs (disk s2))))
    /\ (forall s2 (e : exn),
          client_start (callbacks question (ScriptedClient.with_plus phone)) s1
          = (Threw (ThrownError e), s2) ->
          exists s',
            authenticate sessionManager (Some phone) apiId apiHash s
            = (Resolved false, s')
            /\ outside s' = outside s2
            /\ SessionManager.fs (disk s') = SessionManager.fs (disk s2))
    /\ (forall s2 (w3 : W),
          client_start (callbacks question (ScriptedClient.with_plus phone)) s1
          = (Returned tt, s2) ->
          isUserAuthorized (outside s2) = (Returned false, w3) ->
          exists s',
            authenticate sessionManager (Some phone) apiId apiHash s
            = (Resolved false, s')
            /\ outside s' = w3
            /\ SessionManager.fs (disk s') = SessionManager.fs (disk s2)).
Proof.
  intros Hp Hi Hh Ha.
  assert (Ht : Messenger.truthy_string (Some phone) = true)
    by (cbn; apply String.eqb_neq in Hp; rewrite Hp; reflexivity).
  unfold TelegramAuth.authenticate, ScriptedClient.with_plus.
  rewrite Ht, Hi, Hh. cbn [default from_option id negb orb].
  unfold async_try_catch, log_message_and_return, bind, throw, lift, ret, log,
    on_client, sessionManager_saveSession.
  destruct s as [w d]. cbn [outside disk] in *.
  destruct (Js.starts_with "+" phone);
    cbn [negb outside disk SessionManager.fs SessionManager.logger];
    rewrite Ha;
    cbn [outside disk SessionManager.fs SessionManager.logger];
    match goal with
    | |- context [client_start ?c ?st] => exists st
    end;
    (split; [reflexivity |]); (split; [reflexivity |]);
    (split; [| split]).
  all: try solve [intros s2 e Hs; rewrite Hs; cbn; eauto].
  all: try solve [intros s2 w3 Hs Ha2; rewrite Hs; cbn [outside disk];
                  rewrite Ha2; cbn; eauto].
  all: intros s2 w3 session Hs Ha2 Hsave; rewrite Hs; cbn [outside disk];
    rewrite Ha2; cbn [outside disk]; rewrite Hsave;
    unfold SessionManager.saveSession, SessionManager.try_catch,
      SessionManager.bind, SessionManager.write, SessionManager.log,
      SessionManager.ret;
    cbn [outside disk SessionManager.fs SessionManager.logger];
    destruct (writeFileSync (SessionManager.sessionFilePath sessionManager)
                session (SessionManager.fs (disk s2))) as [[[] | e] f'];
    cbn; eauto.
Qed.

(** [getCurrentUser] writes nothing to disk. When it resolves, it gives a
    user only when the client said that the user is authorized and then
    gave that user; in every other case, errors of the client included, it
    gives [null]. It rejects only when the client threw [null] or
    [undefined], on reading [message] of that value, and then logs
    nothing. *)
Theorem getCurrentUser_gives_the_user_or_null s :
  match getCurrentUser s with
  | (Resolved me, s') =>
      SessionManager.fs (disk s') = SessionManager.fs (disk s)
      /\ forall user, me = Some user ->
           exists w1, isUserAuthorized (outside s) = (Returned true, w1)
                      /\ getMe w1 = (Returned user, outside s')
  | (Rejected e, s') =>
      disk s' = disk s
      /\ exists n : nullish,
           e = cannot_read n "message"
           /\ (fst (isUserAuthorized (outside s)) = Threw (ThrownNullish n)
               \/ exists w1,
                    isUserAuthorized (outside s) = (Returned true, w1)
                    /\ fst (getMe w1) = Threw (ThrownNullish n))
  end.
Proof.
  run_body;
    first [ split; [reflexivity |]; intros user [= <-] || intros user [=]; eauto
          | split; [reflexivity |]; eexists; split; [reflexivity |];
            first [left; reflexivity | right; eexists; split; [reflexivity |]] ];
    match goal with H : getMe _ = _ |- _ => rewrite H; reflexivity end.
Qed.

End WithClient.


(** *** On the scripted client *)

Lemma authenticate_refuses_missing_input_witness :
  exists s',
    ScriptedClient.authenticate InMemory.manager (Some "+15551234") ApiNaN
      (Some "hash") ScriptedClient.logged_out
    = (Resolved false, s')
    /\ outside s' = outside ScriptedClient.logged_out
    /\ SessionManager.fs (disk s') = SessionManager.fs (disk ScriptedClient.logged_out).
Proof.
  apply (authenticate_refuses_missing_input ScriptedClient.world InMemory.FS
           ScriptedClient.isUserAuthorized ScriptedClient.session_save
           ScriptedClient.question InMemory.writeFileSync
           ScriptedClient.client_start InMemory.manager (Some "+15551234")
           ApiNaN (Some "hash") ScriptedClient.logged_out).
  right; left. reflexivity.
Defined.

Lemma authenticate_uses_the_saved_session_witness :
  exists s',
    ScriptedClient.authenticate InMemory.manager (Some "+15551234")
      (ApiNumber 12345) (Some "hash") ScriptedClient.logged_in
    = (Resolved true, s')
    /\ outside s'
       = snd (ScriptedClient.isUserAuthorized (outside ScriptedClient.logged_in))
    /\ SessionManager.fs (disk s') = SessionManager.fs (disk ScriptedClient.logged_in).
Proof.
  apply (authenticate_uses_the_saved_session ScriptedClient.world InMemory.FS
           ScriptedClient.isUserAuthorized ScriptedClient.session_save
           ScriptedClient.question InMemory.writeFileSync
           ScriptedClient.client_start InMemory.manager (Some "+15551234")
           (ApiNumber 12345) (Some "hash") ScriptedClient.logged_in);
    reflexivity.
Defined.

Lemma authenticate_true_means_authorized_witness :
  exists w,
    ScriptedClient.isUserAuthorized w
    = (Returned true,
       outside (snd (ScriptedClient.authenticate InMemory.manager
                       (Some "15551234") (ApiNumber 12345) (Some "hash")
                       ScriptedClient.logged_out))).
Proof.
  apply (authenticate_true_means_authorized ScriptedClient.world InMemory.FS
           ScriptedClient.isUserAuthorized ScriptedClient.session_save
           ScriptedClient.question InMemory.writeFileSync
           ScriptedClient.client_start InMemory.manager (Some "15551234")
           (ApiNumber 12345) (Some "hash") ScriptedClient.logged_out).
  reflexivity.
Defined.

Lemma authenticate_logs_in_and_saves_witness :
  (exists s1,
     outside s1
     = snd (ScriptedClient.isUserAuthorized (outside ScriptedClient.logged_out))
     /\ SessionManager.fs (disk s1)
        = SessionManager.fs (disk ScriptedClient.logged_out))
  /\ exists s',
       ScriptedClient.authenticate InMemory.manager (Some "15551234")
         (ApiNumber 12345) (Some "hash") ScriptedClient.logged_out
       = (Resolved true, s')
       /\ InMemory.files (SessionManager.fs (disk s'))
          = [("./session/session.json", "1BQANOTEuMTA4")].
Proof.
  split.
  - destruct (authenticate_logs_in_and_saves ScriptedClient.world InMemory.FS
                ScriptedClient.isUserAuthorized ScriptedClient.session_save
                ScriptedClient.question InMemory.writeFileSync
                ScriptedClient.client_start InMemory.manager "15551234"
                (ApiNumber 12345) (Some "hash") ScriptedClient.logged_out
                (snd (ScriptedClient.isUserAuthorized
                        (outside ScriptedClient.logged_out))))
      as (s1 & H1 & H2 & _); [discriminate | reflexivity ..|].
    exists s1. split; assumption.
  - eexists. split; reflexivity.
Defined.


(** A client whose first answer is a promise rejected with [undefined]. *)
Lemma authenticate_rejects_only_on_nullish_witness :
  let s :=
    {| outside :=
         {| ScriptedClient.auth_replies := [Threw (ThrownNullish undefined)];
            ScriptedClient.start_reply := Returned tt;
            ScriptedClient.session := Returned "1BQANOTEuMTA4";
            ScriptedClient.typed := [] |};
       disk := InMemory.empty |} in
  exists s',
    ScriptedClient.authenticate InMemory.manager (Some "+15551234")
      (ApiNumber 12345) (Some "hash") s
    = (Rejected
         (TypeError "Cannot read properties of undefined (reading 'message')"),
       s')
    /\ SessionManager.fs (disk s') = SessionManager.fs (disk s).
Proof.
  intros s.
  apply (proj2 (authenticate_rejects_only_on_nullish ScriptedClient.world
                  InMemory.FS ScriptedClient.isUserAuthorized
                  ScriptedClient.session_save ScriptedClient.question
                  InMemory.writeFileSync ScriptedClient.client_start
                  InMemory.manager (Some "+15551234") (ApiNumber 12345)
                  (Some "hash") s)
           undefined
           {| ScriptedClient.auth_replies := [];
              ScriptedClient.start_reply := Returned tt;
              ScriptedClient.session := Returned "1BQANOTEuMTA4";
              ScriptedClient.typed := [] |});
    reflexivity.
Defined.

(** A client that is logged in gives its user; one that rejects with
    [null] makes [getCurrentUser] reject. *)
Lemma getCurrentUser_gives_the_user_or_null_witness :
  fst (ScriptedClient.getCurrentUser ScriptedClient.logged_in)
  = Resolved (Some "me")
  /\ (let s :=
        {| outside :=
             {| ScriptedClient.auth_replies := [Threw (ThrownNullish null)];
                ScriptedClient.start_reply := Returned tt;
                ScriptedClient.session := Returned "1BQANOTEuMTA4";
                ScriptedClient.typed := [] |};
           disk := InMemory.empty |} in
      match ScriptedClient.getCurrentUser s with
      | (Resolved _, _) => False
      | (Rejected e, s') =>
          disk s' = disk s
          /\ exists n : nullish,
               e = cannot_read n "message"
               /\ (fst (ScriptedClient.isUserAuthorized (outside s))
                   = Threw (ThrownNullish n)
                   \/ exists w1,
                        ScriptedClient.isUserAuthorized (outside s)
                        = (Returned true, w1)
                        /\ fst (ScriptedClient.getMe w1)
                           = Threw (ThrownNullish n))
      end).
Proof.
  split; [reflexivity |]. intros s.
  exact (getCurrentUser_gives_the_user_or_null ScriptedClient.world InMemory.FS
           string ScriptedClient.isUserAuthorized ScriptedClient.getMe s).
Defined.

End AuthFacts.
